(** * zipline: RingBuffer, ExplodingObject and the Returns metric

    A shallow embedding of [zipline/lib/ringbuffer.py],
    [zipline/utils/exploding_object.py] and
    [zipline/finance/metrics/simple.py].

    [RingBuffer] is a thin layer over a numpy array, so the first part of
    the file is a model of the numpy operations the class calls
    ([np.full], item and slice assignment, the eight reductions).  The
    model fixes the dtype to ['i8'] (64-bit signed integers, the dtype of
    the class's doctests): items are [Z] values kept in the int64 range,
    [sum] and [prod] wrap around modulo [2^64] as the C loops do.  [mean]
    and [std] are computed as numpy computes them, in IEEE 754 binary64
    (the kernel's primitive floats), the items added in the order of
    numpy's loops.  Where numpy 1.x and 2.x differ, the model follows
    numpy 1.x, which the repository was written for. *)

From Stdlib Require Import String Ascii.
From Stdlib Require Import List ZArith QArith Lia Bool Permutation Arith.
From Stdlib Require Floats.PrimFloat Floats.FloatOps Floats.SpecFloat.
From Stdlib Require Numbers.Cyclic.Int63.Uint63.
Import ListNotations.
Close Scope Q_scope.
Open Scope nat_scope.

(** ** Python values and exceptions *)

Module Py.

Inductive exn_class : Set :=
| ValueError | TypeError | OverflowError | IndexError | AxisError
| ZeroDivisionError | AttributeError.

Record exn : Set := Raise { cls : exn_class; msg : string }.

(** The Python objects that reach the buffer: integers, [None] (an object
    that is not a number) and (nested) lists. *)
#[warnings="-register-all"]
Inductive obj : Type :=
| PyInt (z : Z)
| PyNone
| PyList (xs : list obj).

(** A call either raises or returns. *)
Definition result (A : Type) : Type := (exn + A)%type.

Definition raise {A : Type} (c : exn_class) (m : string) : result A :=
  inl (Raise c m).

Definition bind {A B : Type} (r : result A) (k : A -> result B) : result B :=
  match r with
  | inl e => inl e
  | inr a => k a
  end.

(** Results of a list of calls made in order: the first exception wins. *)
Fixpoint sequence {A : Type} (rs : list (result A)) : result (list A) :=
  match rs with
  | [] => inr []
  | r :: rs' =>
      bind r (fun a => bind (sequence rs') (fun l => inr (a :: l)))
  end.

End Py.

Import Py.

(** ** The numpy model *)

Module Np.

Inductive dtype : Set := i8.

Definition int64_min : Z := (- 2 ^ 63)%Z.
Definition int64_max : Z := (2 ^ 63 - 1)%Z.

Definition in_int64 (z : Z) : bool :=
  ((int64_min <=? z) && (z <=? int64_max))%Z.

(** Two's complement wrap-around of the C [npy_int64] arithmetic. *)
Definition wrap64 (z : Z) : Z := ((z + 2 ^ 63) mod 2 ^ 64 - 2 ^ 63)%Z.

(** An array is its shape and its items in C (row-major) order. *)
Record ndarray : Set := { shape : list nat; data : list Z }.

(** Number of items of an array of the given shape. *)
Definition size (s : list nat) : nat := fold_right Nat.mul 1 s.

Fixpoint shape_eqb (s t : list nat) : bool :=
  match s, t with
  | [], [] => true
  | a :: s', b :: t' => (a =? b) && shape_eqb s' t'
  | _, _ => false
  end.

Definition seq_error : string := "setting an array element with a sequence.".
Definition broadcast_error : string := "could not broadcast input array".

(** [LONG_setitem]: one Python object stored as an int64 item. *)
Definition to_int64 (o : obj) : result Z :=
  match o with
  | PyInt z =>
      if in_int64 z then inr z
      else raise OverflowError "Python int too large to convert to C long"
  | PyNone => raise TypeError "int() argument must be a string or a number"
  | PyList _ => raise ValueError seq_error
  end.

(** Shape discovery of a (nested) sequence, over at most [maxdims]
    dimensions.  [None]: the nesting is ragged or deeper than [maxdims];
    for an integer dtype numpy raises [ValueError] then. *)
Fixpoint discover (maxdims : nat) (o : obj) {struct maxdims}
  : option (list nat) :=
  match o with
  | PyList xs =>
      match maxdims with
      | O => None
      | S m =>
          match xs with
          | [] => Some [0]
          | x :: rest =>
              match discover m x with
              | None => None
              | Some s =>
                  if forallb
                       (fun y => match discover m y with
                                 | Some t => shape_eqb s t
                                 | None => false
                                 end) rest
                  then Some (length xs :: s)
                  else None
              end
          end
      end
  | _ => Some []
  end.

(** The scalar items of a sequence, in C order. *)
Fixpoint leaves (maxdims : nat) (o : obj) {struct maxdims} : list obj :=
  match o with
  | PyList xs =>
      match maxdims with
      | O => [o]
      | S m => flat_map (leaves m) xs
      end
  | _ => [o]
  end.

(** Items stored one after the other into the destination itself: the
    items before the first one that does not convert stay written. *)
Fixpoint pack_into (dst : list Z) (items : list obj) {struct items}
  : list Z * option exn :=
  match items, dst with
  | [], _ => (dst, None)
  | _ :: _, [] => ([], None)
  | o :: items', old :: dst' =>
      match to_int64 o with
      | inl e => (dst, Some e)
      | inr z => let (d, r) := pack_into dst' items' in (z :: d, r)
      end
  end.

(** Items converted into a fresh temporary array. *)
Definition pack_new (items : list obj) : result (list Z) :=
  sequence (map to_int64 items).

(** [k] consecutive chunks of [n] items. *)
Fixpoint chunks {A : Type} (n k : nat) (l : list A) : list (list A) :=
  match k with
  | O => []
  | S k' => firstn n l :: chunks n k' (skipn n l)
  end.

Fixpoint all_some {A : Type} (l : list (option A)) : option (list A) :=
  match l with
  | [] => Some []
  | None :: _ => None
  | Some a :: l' => option_map (cons a) (all_some l')
  end.

(** Broadcasting of a source array to the shape of the destination
    (shapes aligned on the right; a source dimension is the destination's
    or 1).  [None]: the shapes are not compatible. *)
Fixpoint broadcast {A : Type} (src_shape : list nat) (src : list A)
    (dst_shape : list nat) {struct dst_shape} : option (list A) :=
  match dst_shape with
  | [] =>
      match src_shape with
      | [] => Some src
      | _ :: _ => None
      end
  | d :: dst' =>
      if length src_shape <? length dst_shape then
        option_map (fun sub => concat (repeat sub d))
                   (broadcast src_shape src dst')
      else
        match src_shape with
        | [] => None
        | s :: src' =>
            if s =? d then
              option_map (@concat A)
                (all_some (map (fun c => broadcast src' c dst')
                               (chunks (size src') s src)))
            else if s =? 1 then
              option_map (fun sub => concat (repeat sub d))
                         (broadcast src' src dst')
            else None
        end
  end.

(** Leading dimensions of length 1 that the source has in excess of the
    destination are dropped before broadcasting. *)
Fixpoint strip_ones (excess : nat) (s : list nat) : list nat :=
  match excess, s with
  | S e, 1 :: s' => strip_ones e s'
  | _, _ => s
  end.

(** [dst[...] = v]: assignment of the object [v] to a destination view of
    the given shape ([PyArray_CopyObject]).  When [v] has exactly the
    destination's shape its items are stored straight into the
    destination; otherwise they go through a temporary array, which is
    then broadcast.  Returns the destination's items after the call and
    the call's outcome. *)
Definition assign (dst_shape : list nat) (dst : list Z) (v : obj)
  : list Z * result unit :=
  match discover (length dst_shape) v with
  | None => (dst, raise ValueError seq_error)
  | Some s =>
      let items := leaves (length dst_shape) v in
      if shape_eqb s dst_shape then
        match pack_into dst items with
        | (d, None) => (d, inr tt)
        | (d, Some e) => (d, inl e)
        end
      else
        match pack_new items with
        | inl e => (dst, inl e)
        | inr tmp =>
            match broadcast s tmp dst_shape with
            | None => (dst, raise ValueError broadcast_error)
            | Some d => (d, inr tt)
            end
        end
  end.

(** [a[ix] = v] for an integer [ix >= 0]. *)
Definition setitem_int (a : ndarray) (ix : nat) (v : obj)
  : ndarray * result unit :=
  match shape a with
  | [] => (a, raise IndexError "too many indices for array")
  | c :: payload =>
      if c <=? ix then (a, raise IndexError "index out of bounds")
      else
        let n := size payload in
        let off := ix * n in
        let (slot, r) := assign payload (firstn n (skipn off (data a))) v in
        ({| shape := shape a;
            data := firstn off (data a) ++ slot ++ skipn (off + n) (data a) |},
         r)
  end.

(** [a[:] = v]. *)
Definition setitem_all (a : ndarray) (v : obj) : ndarray * result unit :=
  let (d, r) := assign (shape a) (data a) v in
  ({| shape := shape a; data := d |}, r).

(** The [shape] argument: an int or a tuple of ints. *)
Inductive shape_arg : Set :=
| ShapeInt (n : Z)
| ShapeTuple (dims : list Z).

Definition dims_of (s : shape_arg) : list Z :=
  match s with
  | ShapeInt n => [n]
  | ShapeTuple dims => dims
  end.

(** The most dimensions an array can have (64 from numpy 2.0 on). *)
Definition NPY_MAXDIMS : nat := 32.

(** The loop of [PyArray_NewFromDescr] over the dimensions, [nbytes]
    being the size in bytes of the dimensions seen so far: a dimension
    of 0 is passed over, a negative one is refused, and so is a size in
    bytes that does not fit in an [npy_intp]. *)
Fixpoint check_dims (nbytes : Z) (dims : list Z) : result unit :=
  match dims with
  | [] => inr tt
  | d :: dims' =>
      if (d =? 0)%Z then check_dims nbytes dims'
      else if (d <? 0)%Z then
        raise ValueError "negative dimensions are not allowed"
      else if (int64_max <? nbytes * d)%Z then
        raise ValueError "array is too big"
      else check_dims (nbytes * d) dims'
  end.

(** [np.empty(shape, dtype)]: the shape is converted (at most
    [NPY_MAXDIMS] dimensions, each one an [npy_intp]) and checked, and
    the array allocated.  The allocation is taken to succeed (no
    [MemoryError]); the uninitialised items are taken as 0. *)
Definition empty (s : shape_arg) (t : dtype) : result ndarray :=
  let dims := dims_of s in
  if NPY_MAXDIMS <? length dims then
    raise ValueError "sequence too large; cannot be greater than 32"
  else if negb (forallb in_int64 dims) then
    raise ValueError "Maximum allowed dimension exceeded"
  else
    bind (check_dims 8 dims) (fun _ =>
      let sh := map Z.to_nat dims in
      inr {| shape := sh; data := repeat 0%Z (size sh) |}).

(** The cast [(npy_double)z] of an int64 item [z], rounded (to the
    nearest, ties to even) when [z] has more than 53 significant bits.
    A C [double] is a [PrimFloat.float], IEEE 754 binary64. *)
Definition float_of_int64 (z : Z) : PrimFloat.float :=
  if (z <? 0)%Z then
    if (z =? int64_min)%Z then
      PrimFloat.opp
        (PrimFloat.mul PrimFloat.two
           (PrimFloat.of_uint63 (Uint63.of_Z (2 ^ 62))))
    else PrimFloat.opp (PrimFloat.of_uint63 (Uint63.of_Z (- z)))
  else PrimFloat.of_uint63 (Uint63.of_Z z).

(** The cast [(npy_int64)f]: the fraction is dropped; out of the int64
    range the C cast is undefined, and gives [INT64_MIN] on x86-64. *)
Definition int64_of_float (f : PrimFloat.float) : Z :=
  match FloatOps.Prim2SF f with
  | SpecFloat.S754_zero _ => 0%Z
  | SpecFloat.S754_finite s m e =>
      let v :=
        if (e <? 0)%Z then (Z.pos m / 2 ^ (- e))%Z
        else (Z.pos m * 2 ^ e)%Z in
      let z := if s then (- v)%Z else v in
      if in_int64 z then z else int64_min
  | _ => int64_min
  end.

(** The dtype that [np.array(v)] finds for [v]: [int64] for the Python
    ints in its range, [uint64] for the ones from [2^63] to [2^64 - 1],
    [object] for the others and for [None]; [int64] and [uint64] items
    together make a [float64] array. *)
Inductive found_dtype : Set :=
| FoundInt64 | FoundUInt64 | FoundFloat64 | FoundObject.

Definition item_dtype (o : obj) : found_dtype :=
  match o with
  | PyInt z =>
      if in_int64 z then FoundInt64
      else if ((0 <=? z) && (z <? 2 ^ 64))%Z then FoundUInt64
      else FoundObject
  | _ => FoundObject
  end.

Definition promote (a b : found_dtype) : found_dtype :=
  match a, b with
  | FoundObject, _ | _, FoundObject => FoundObject
  | FoundInt64, FoundInt64 => FoundInt64
  | FoundUInt64, FoundUInt64 => FoundUInt64
  | _, _ => FoundFloat64
  end.

Definition find_dtype (items : list obj) : found_dtype :=
  match items with
  | [] => FoundFloat64
  | o :: items' => fold_left promote (map item_dtype items') (item_dtype o)
  end.

(** One item of [np.array(v)] cast to int64 with [casting='unsafe']: a
    [uint64] wraps around, a [float64] is truncated, an [object] is
    converted as by [LONG_setitem], which can raise. *)
Definition cast_unsafe (d : found_dtype) (o : obj) : result Z :=
  match d, o with
  | FoundInt64, PyInt z => inr z
  | FoundUInt64, PyInt z => inr (wrap64 z)
  | FoundFloat64, PyInt z =>
      inr (if (int64_max <? z)%Z then int64_min
           else int64_of_float (float_of_int64 z))
  | _, _ => to_int64 o
  end.

(** [np.copyto(a, v, casting='unsafe')]: [v] is made an array of the
    dtype found for it, which is broadcast to the shape of [a], and the
    items are cast as they are copied: none is when [a] has no item.
    (From numpy 2.0 on a Python int [v] is converted to the dtype of [a]
    at once, and [2^63] raises [OverflowError] instead of wrapping.) *)
Definition copyto (a : ndarray) (v : obj) : result ndarray :=
  match discover NPY_MAXDIMS v with
  | None => raise ValueError seq_error
  | Some s =>
      let items := leaves NPY_MAXDIMS v in
      let s' := strip_ones (length s - length (shape a)) s in
      match broadcast s' items (shape a) with
      | None => raise ValueError broadcast_error
      | Some copied =>
          bind (sequence (map (cast_unsafe (find_dtype items)) copied))
               (fun d => inr {| shape := shape a; data := d |})
      end
  end.

(** [np.full(shape, fill_value, dtype)]. *)
Definition full (s : shape_arg) (fill_value : obj) (t : dtype)
  : result ndarray :=
  bind (empty s t) (fun a => copyto a fill_value).

(** *** Reductions *)

(** A numpy scalar.  A finite float64 is given by the rational it is, in
    lowest terms. *)
Inductive scalar : Set :=
| int64 (z : Z)
| bool_ (b : bool)
| float64 (q : Q)
| inf (negative : bool)
| nan.

Inductive value : Set :=
| Scalar (s : scalar)
| Array (sh : list nat) (items : list scalar).

(** The [ndarray] methods that [RingBuffer] forwards to. *)
Inductive reduction : Set := All | Any | Max | Mean | Min | Prod | Std | Sum.

Definition ufunc_name (r : reduction) : string :=
  match r with
  | All => "logical_and" | Any => "logical_or"
  | Max => "maximum" | Min => "minimum"
  | Prod => "multiply" | Sum | Mean | Std => "add"
  end.

(** [maximum] and [minimum] have no identity: they reject an empty axis. *)
Definition no_identity (r : reduction) : bool :=
  match r with
  | Max | Min => true
  | _ => false
  end.

Definition zero_size_error (r : reduction) : string :=
  ("zero-size array to reduction operation " ++ ufunc_name r
   ++ " which has no identity")%string.

(** The reductions whose result is a float64. *)
Definition float_result (r : reduction) : bool :=
  match r with
  | Mean | Std => true
  | _ => false
  end.

(** **** float64 arithmetic

    [PrimFloat.add], [sub], [mul], [div] and [sqrt] are the IEEE 754
    binary64 operations of the C loops, rounded to the nearest, ties to
    even. *)

(** The scalar that a float64 is; the sign of a zero is dropped. *)
Definition of_float (f : PrimFloat.float) : scalar :=
  match FloatOps.Prim2SF f with
  | SpecFloat.S754_zero _ => float64 0
  | SpecFloat.S754_infinity s => inf s
  | SpecFloat.S754_nan => nan
  | SpecFloat.S754_finite s m e =>
      let v := inject_Z (if s then Z.neg m else Z.pos m) in
      float64
        (Qred (if (e <? 0)%Z then (v / inject_Z (2 ^ (- e)))%Q
               else (v * inject_Z (2 ^ e))%Q))
  end.

(** [res += a[i]] for each item in turn. *)
Definition sum_loop (res : PrimFloat.float) (a : list PrimFloat.float)
  : PrimFloat.float :=
  fold_left PrimFloat.add a res.

(** [r[j] += a[j]] for the eight accumulators. *)
Fixpoint add_each (r a : list PrimFloat.float)
  : list PrimFloat.float :=
  match r, a with
  | x :: r', y :: a' => PrimFloat.add x y :: add_each r' a'
  | _, _ => r
  end.

Fixpoint accumulate (blocks : nat) (r a : list PrimFloat.float)
  : list PrimFloat.float :=
  match blocks with
  | O => r
  | S b => accumulate b (add_each r (firstn 8 a)) (skipn 8 a)
  end.

(** The branch [n <= PW_BLOCKSIZE] of [pairwise_sum], for [8 <= n]: eight
    accumulators over the blocks of eight items, added in pairs, then the
    items that are left. *)
Definition sum_block (a : list PrimFloat.float) : PrimFloat.float :=
  let n := length a in
  let r := accumulate (n / 8 - 1) (firstn 8 a) (skipn 8 a) in
  let res :=
    match r with
    | [r0; r1; r2; r3; r4; r5; r6; r7] =>
        PrimFloat.add
          (PrimFloat.add (PrimFloat.add r0 r1) (PrimFloat.add r2 r3))
          (PrimFloat.add (PrimFloat.add r4 r5) (PrimFloat.add r6 r7))
    | _ => PrimFloat.zero
    end in
  sum_loop res (skipn (n - n mod 8) a).

Definition PW_BLOCKSIZE : nat := 128.

(** [pairwise_sum] of [loops.c.src]: a plain loop below 8 items, a block
    up to 128 items, else the sum of the sums of the two halves (the
    first one of a multiple of 8 items).  The recursion is on [fuel];
    [length a] is enough of it ([pairwise_sum_fuel]). *)
Fixpoint pairwise_sum (fuel : nat) (a : list PrimFloat.float)
  : PrimFloat.float :=
  let n := length a in
  if n <? 8 then sum_loop PrimFloat.zero a
  else if n <=? PW_BLOCKSIZE then sum_block a
  else
    match fuel with
    | O => sum_block a
    | S fuel' =>
        let n2 := n / 2 in
        let n2 := n2 - n2 mod 8 in
        PrimFloat.add (pairwise_sum fuel' (firstn n2 a))
                      (pairwise_sum fuel' (skipn n2 a))
    end.

(** How [add.reduce] walks a lane.  [Contiguous]: the lane is the inner
    loop (a reduction over all the items, or along the last axis that is
    longer than 1), [*out += pairwise_sum(lane)].  [Strided]: the inner
    loop runs over the other axes, and the items of a lane are added one
    by one, [out[i] += a[j][i]]. *)
Inductive order : Set := Contiguous | Strided.

(** [np.add.reduce(x)] of float64 items, from the identity [0.0]. *)
Definition add_reduce (o : order) (x : list PrimFloat.float)
  : PrimFloat.float :=
  match o with
  | Contiguous =>
      PrimFloat.add PrimFloat.zero (pairwise_sum (length x) x)
  | Strided => sum_loop PrimFloat.zero x
  end.

(** The items of the iterator's buffer. *)
Definition NPY_BUFSIZE : nat := 64 * 128.

(** [np.add.reduce(a, dtype='f8')] of int64 items: the items are cast
    into the iterator's buffer, [NPY_BUFSIZE] at a time, and the inner
    loop is run on each buffer. *)
Definition add_reduce_int64 (o : order) (xs : list Z) : PrimFloat.float :=
  match o with
  | Contiguous =>
      fold_left
        (fun res buf =>
           PrimFloat.add res
             (pairwise_sum (length buf) (map float_of_int64 buf)))
        (chunks NPY_BUFSIZE
                ((length xs + (NPY_BUFSIZE - 1)) / NPY_BUFSIZE) xs)
        PrimFloat.zero
  | Strided => sum_loop PrimFloat.zero (map float_of_int64 xs)
  end.

(** [_methods._mean]: [umr_sum(arr, axis, dtype='f8')], then
    [ret / rcount]. *)
Definition mean (o : order) (xs : list Z) : PrimFloat.float :=
  let rcount := float_of_int64 (Z.of_nat (length xs)) in
  PrimFloat.div (add_reduce_int64 o xs) rcount.

(** [_methods._var] with [ddof = 0]:
    [arrmean = umr_sum(arr, axis, 'f8', keepdims=True) / rcount],
    [x = arr - arrmean], [x = multiply(x, x)],
    [umr_sum(x, axis) / rcount]. *)
Definition var (o : order) (xs : list Z) : PrimFloat.float :=
  let rcount := float_of_int64 (Z.of_nat (length xs)) in
  let arrmean := PrimFloat.div (add_reduce_int64 o xs) rcount in
  let x := map (fun a => PrimFloat.sub (float_of_int64 a) arrmean) xs in
  let x := map (fun d => PrimFloat.mul d d) x in
  PrimFloat.div (add_reduce o x) rcount.

(** [_methods._std]: [sqrt(_var(...))]. *)
Definition std (o : order) (xs : list Z) : PrimFloat.float :=
  PrimFloat.sqrt (var o xs).

(** One reduction over the items of one lane that is the inner loop. *)
Definition reduce1 (r : reduction) (xs : list Z) : result scalar :=
  match r with
  | Sum => inr (int64 (fold_left (fun acc x => wrap64 (acc + x)) xs 0%Z))
  | Prod => inr (int64 (fold_left (fun acc x => wrap64 (acc * x)) xs 1%Z))
  | Max =>
      match xs with
      | [] => raise ValueError (zero_size_error Max)
      | x :: xs' => inr (int64 (fold_left Z.max xs' x))
      end
  | Min =>
      match xs with
      | [] => raise ValueError (zero_size_error Min)
      | x :: xs' => inr (int64 (fold_left Z.min xs' x))
      end
  | All => inr (bool_ (forallb (fun x => negb (x =? 0)%Z) xs))
  | Any => inr (bool_ (existsb (fun x => negb (x =? 0)%Z) xs))
  | Mean => inr (of_float (mean Contiguous xs))
  | Std => inr (of_float (std Contiguous xs))
  end.

(** One reduction over the items of one lane whose items are apart in
    memory: the integer and boolean results do not depend on the order
    of the items, the float64 sums do. *)
Definition reduce1_strided (r : reduction) (xs : list Z) : result scalar :=
  match r with
  | Mean => inr (of_float (mean Strided xs))
  | Std => inr (of_float (std Strided xs))
  | _ => reduce1 r xs
  end.

(** An integer axis, counted from the end when negative. *)
Definition normalize_axis (ndim : nat) (axis : Z) : result nat :=
  if ((- Z.of_nat ndim <=? axis) && (axis <? Z.of_nat ndim))%Z then
    inr (Z.to_nat (if (axis <? 0)%Z then axis + Z.of_nat ndim else axis))
  else raise AxisError "axis is out of bounds for array".

(** [a.<name>(axis)]: over all items for [axis=None], else along the one
    axis, which is removed from the shape; a 0-d result is a scalar. *)
Definition reduce (r : reduction) (a : ndarray) (axis : option Z)
  : result value :=
  match axis with
  | None => bind (reduce1 r (data a)) (fun s => inr (Scalar s))
  | Some k =>
      bind (normalize_axis (length (shape a)) k) (fun k =>
        let outer := size (firstn k (shape a)) in
        let n := nth k (shape a) 0 in
        let inner := size (skipn (S k) (shape a)) in
        let lane o i :=
          map (fun j => nth ((o * n + j) * inner + i) (data a) 0%Z)
              (seq 0 n) in
        let reduce_lane :=
          if inner =? 1 then reduce1 r else reduce1_strided r in
        if (n =? 0) && no_identity r then raise ValueError (zero_size_error r)
        else
          bind (sequence
                  (flat_map (fun o => map (fun i => reduce_lane (lane o i))
                                          (seq 0 inner))
                            (seq 0 outer)))
               (fun items =>
                  match firstn k (shape a) ++ skipn (S k) (shape a) with
                  | [] => inr (Scalar (hd nan items))
                  | sh => inr (Array sh items)
                  end))
  end.

End Np.

(** ** zipline/lib/ringbuffer.py *)

Module RingBuffer.

Record t : Set := { _buffer : Np.ndarray; _capacity : nat; _ix : nat }.

Definition __init__ (shape : Np.shape_arg) (fill_value : obj)
    (dtype : Np.dtype) : result t :=
  bind (Np.full shape fill_value dtype) (fun buffer =>
    match Np.shape buffer with
    | [] => raise IndexError "tuple index out of range"
    | capacity :: _ =>
        inr {| _buffer := buffer; _capacity := capacity; _ix := 0 |}
    end).

Definition __len__ (self : t) : nat := _capacity self.

(** [self._buffer[:] = value] *)
Definition fill (self : t) (value : obj) : t * result unit :=
  let (buffer, r) := Np.setitem_all (_buffer self) value in
  ({| _buffer := buffer; _capacity := _capacity self; _ix := _ix self |}, r).

(** [ix = self._ix; self._buffer[ix] = element;
     self._ix = (ix + 1) % self._capacity] *)
Definition push (self : t) (element : obj) : t * result unit :=
  let ix := _ix self in
  let (buffer, r) := Np.setitem_int (_buffer self) ix element in
  let self' :=
    {| _buffer := buffer; _capacity := _capacity self; _ix := ix |} in
  match r with
  | inl e => (self', inl e)
  | inr _ =>
      match _capacity self with
      | O => (self', raise ZeroDivisionError "integer division or modulo by zero")
      | S _ =>
          ({| _buffer := buffer; _capacity := _capacity self;
              _ix := (ix + 1) mod _capacity self |}, inr tt)
      end
  end.

(** [axis in (None, 0)] *)
Definition axis_in_None_0 (axis : option Z) : bool :=
  match axis with
  | None => true
  | Some k => (k =? 0)%Z
  end.

Definition non_primary_axis : string :=
  "cannot perform reduction along non-primary axis".

(** The method that [_numpy_reduction(name)] returns, called with its
    [axis] argument alone ([None] when it is left out). *)
Definition _numpy_reduction (name : Np.reduction) (self : t)
    (axis : option Z) : result Np.value :=
  if negb (axis_in_None_0 axis) then raise ValueError non_primary_axis
  else Np.reduce name (_buffer self) axis.

Definition all := _numpy_reduction Np.All.
Definition any := _numpy_reduction Np.Any.
Definition max := _numpy_reduction Np.Max.
Definition mean := _numpy_reduction Np.Mean.
Definition min := _numpy_reduction Np.Min.
Definition prod := _numpy_reduction Np.Prod.
Definition std := _numpy_reduction Np.Std.
Definition sum := _numpy_reduction Np.Sum.

(** A call of a reduction method together with the object after it: the
    body of [method] reads [self._buffer] and assigns to nothing, and a
    numpy reduction does not write to the array it reduces. *)
Definition call_reduction (name : Np.reduction) (self : t)
    (axis : option Z) : t * result Np.value :=
  (self, _numpy_reduction name self axis).

(** A call of [push] or [fill], for sequences of calls; the caller goes on
    with the same object whether or not the call raised. *)
Inductive call : Type :=
| Push (element : obj)
| Fill (value : obj).

Definition do_call (self : t) (c : call) : t * result unit :=
  match c with
  | Push element => push self element
  | Fill value => fill self value
  end.

Definition do_calls (self : t) (cs : list call) : t :=
  fold_left (fun s c => fst (do_call s c)) cs self.

(** [for element in elements: self.push(element)], which stops at the
    first exception. *)
Fixpoint push_each (self : t) (elements : list obj) : t * result unit :=
  match elements with
  | [] => (self, inr tt)
  | element :: rest =>
      match push self element with
      | (self', inl e) => (self', inl e)
      | (self', inr _) => push_each self' rest
      end
  end.

End RingBuffer.

(** ** zipline/utils/exploding_object.py *)

Module ExplodingObject.

Definition squote : ascii := ascii_of_nat 39.
Definition dquote : ascii := ascii_of_nat 34.
Definition backslash : ascii := ascii_of_nat 92.

Fixpoint contains_char (c : ascii) (s : string) : bool :=
  match s with
  | EmptyString => false
  | String a s' => Ascii.eqb a c || contains_char c s'
  end.

Definition hex_digit (n : nat) : ascii :=
  ascii_of_nat (if n <? 10 then 48 + n else 87 + n).

(** The strings of the model are the [str] of code points below 256,
    one [ascii] for each code point.  [isprintable c] is
    [Py_UNICODE_ISPRINTABLE] on them: true of the code points 32 to 126
    and 161 to 255 but the soft hyphen 173; false of the controls, of DEL
    and of the no-break space 160. *)
Definition isprintable (c : ascii) : bool :=
  let n := nat_of_ascii c in
  ((32 <=? n) && (n <? 127)) || ((161 <=? n) && negb (n =? 173)).

(** One character of [repr(s)] for a [str], inside the chosen quotes
    ([unicode_repr]). *)
Definition repr_char (quote c : ascii) : string :=
  let n := nat_of_ascii c in
  if Ascii.eqb c quote || Ascii.eqb c backslash then
    String backslash (String c EmptyString)
  else if n =? 9 then String backslash "t"
  else if n =? 10 then String backslash "n"
  else if n =? 13 then String backslash "r"
  else if negb (isprintable c) then
    String backslash
      (String "x" (String (hex_digit (n / 16))
                          (String (hex_digit (n mod 16)) EmptyString)))
  else String c EmptyString.

Fixpoint repr_body (quote : ascii) (s : string) : string :=
  match s with
  | EmptyString => EmptyString
  | String c s' => (repr_char quote c ++ repr_body quote s')%string
  end.

(** [repr(s)], which is what [%r] formats: single quotes, unless the
    string has a single quote and no double quote. *)
Definition repr (s : string) : string :=
  let quote :=
    if contains_char squote s && negb (contains_char dquote s)
    then dquote else squote in
  String quote (repr_body quote s ++ String quote EmptyString).

Record t : Set := { _name : string }.

Definition __init__ (name : string) : t := {| _name := name |}.

Definition __getattr__ {A : Type} (self : t) (attr : string) : result A :=
  raise AttributeError
    ("attempted to access attribute " ++ repr attr
     ++ " of ExplodingObject " ++ repr (_name self))%string.

(** What an attribute access can evaluate to. *)
Inductive attribute : Set :=
| InstanceAttr (v : string)
| ClassAttr (name : string).

(** The names bound in the class body. *)
Definition class_body : list string :=
  ["__doc__"%string; "__init__"%string; "__getattr__"%string].

Section AttributeAccess.

(** The other names that the class has: the ones inherited from
    [object] and the ones the class statement adds. *)
Variable inherited : list string.

(** The ordinary lookup: the instance's [__dict__], then the class. *)
Definition lookup (self : t) (attr : string) : option attribute :=
  if String.eqb attr "_name" then Some (InstanceAttr (_name self))
  else if existsb (String.eqb attr) (class_body ++ inherited)
  then Some (ClassAttr attr)
  else None.

(** [self.<attr>]: [__getattr__] is called when the ordinary lookup
    finds nothing. *)
Definition getattr (self : t) (attr : string) : result attribute :=
  match lookup self attr with
  | Some v => inr v
  | None => __getattr__ self attr
  end.

End AttributeAccess.

(** [s] occurs in [t]. *)
Definition includes (s t : string) : Prop :=
  exists a b : string, t = (a ++ s ++ b)%string.

(** [includesb s t]: does [s] occur in [t]? *)
Fixpoint prefixb (s t : string) : bool :=
  match s, t with
  | EmptyString, _ => true
  | String a s', String b t' => Ascii.eqb a b && prefixb s' t'
  | String _ _, EmptyString => false
  end.

Fixpoint includesb (s t : string) : bool :=
  prefixb s t
  || match t with
     | EmptyString => false
     | String _ t' => includesb s t'
     end.

(** Strings that [repr] copies as they are: printable characters, none
    of them a single quote or a backslash. *)
Definition plain_char (c : ascii) : bool :=
  isprintable c
  && negb (Ascii.eqb c squote) && negb (Ascii.eqb c backslash).

Fixpoint plain (s : string) : bool :=
  match s with
  | EmptyString => true
  | String c s' => plain_char c && plain s'
  end.

End ExplodingObject.

(** ** zipline/finance/metrics/simple.py *)

Module Returns.

(** The numbers of the metric (the returns of the portfolio): [0], [1],
    [np.nan], [+], [-] and [/], which may raise (Python floats raise
    [ZeroDivisionError], numpy floats do not). *)
Class Number : Type := {
  num : Type;
  zero : num;
  one : num;
  nan : num;
  add : num -> num -> num;
  sub : num -> num -> num;
  truediv : num -> num -> Py.result num
}.

(** Timestamps, with [dt.normalize()] and the equality of labels. *)
Class Time : Type := {
  timestamp : Type;
  timestamp_eqb : timestamp -> timestamp -> bool;
  normalize : timestamp -> timestamp
}.

(** The exceptions of the metric: [KeyError] beside the ones above. *)
Inductive exn : Set :=
| PyExn (e : Py.exn)
| KeyError (key : string).

Definition result (A : Type) : Type := (exn + A)%type.

Section Metric.

Context {N : Number} {T : Time}.

(** A [pd.Series]: its labels and values, in the order of the index. *)
Definition Series : Type := list (timestamp * num).

(** [s.index] *)
Definition index (s : Series) : list timestamp := map fst s.

(** [pd.Series(value, index=idx)] *)
Definition Series_full (value : num) (idx : list timestamp) : Series :=
  map (fun label => (label, value)) idx.

(** [s[label] = value]: every row of that label is set; a label that the
    index does not have is added at the end. *)
Definition Series_setitem (s : Series) (label : timestamp) (value : num)
  : Series :=
  if existsb (fun row => timestamp_eqb (fst row) label) s
  then map (fun row => if timestamp_eqb (fst row) label
                       then (fst row, value) else row) s
  else s ++ [(label, value)].

(** A [dict] from strings to numbers, in insertion order. *)
Definition dict : Type := list (string * num).

(** [d[k] = v] *)
Fixpoint dict_setitem (d : dict) (k : string) (v : num) : dict :=
  match d with
  | [] => [(k, v)]
  | (k', v') :: d' =>
      if String.eqb k' k then (k', v) :: d'
      else (k', v') :: dict_setitem d' k v
  end.

(** The dicts that a packet holds are objects of their own: the packet
    maps its keys to their addresses in a store, and two keys may hold
    the same dict. *)
Definition store : Type := nat -> dict.

Definition store_set (h : store) (r : nat) (d : dict) : store :=
  fun r' => if r' =? r then d else h r'.

Definition packet : Type := list (string * nat).

(** [packet[key]], which raises [KeyError] on a key that is missing. *)
Definition packet_getitem (p : packet) (key : string) : result nat :=
  match find (fun kv => String.eqb (fst kv) key) p with
  | Some kv => inr (snd kv)
  | None => inl (KeyError key)
  end.

Record Portfolio : Type := { returns : num }.
Record Ledger : Type := { portfolio : Portfolio }.

(** The attributes of a [Returns] object.  [_daily_returns] and
    [_benchmark_returns] hold [None] or a series; [benchmark_returns] and
    [daily_returns] do not exist ([None] here) until they are assigned. *)
Record t : Type := {
  _daily_returns : option Series;
  _benchmark_returns : option Series;
  _previous_total_returns : num;
  benchmark_returns : option Series;
  daily_returns : option Series
}.

Definition __init__ : t :=
  {| _daily_returns := None;
     _benchmark_returns := None;
     _previous_total_returns := zero;
     benchmark_returns := None;
     daily_returns := None |}.

(** [benchmark_source] is given by its [get_range] method. *)
Definition start_of_simulation (self : t)
    (first_session last_session : timestamp)
    (benchmark_source : timestamp -> timestamp -> Series) : t :=
  let benchmark := benchmark_source first_session last_session in
  {| _daily_returns := _daily_returns self;
     _benchmark_returns := _benchmark_returns self;
     _previous_total_returns := zero;
     benchmark_returns := Some benchmark;
     daily_returns := Some (Series_full nan (index benchmark)) |}.

Definition NoneType_setitem : string :=
  "'NoneType' object does not support item assignment".

(** The right-hand side of the double assignment is evaluated first, then
    the item of [self._daily_returns] is assigned, then
    [todays_returns]. *)
Definition _compute (self : t) (key : string) (p : packet) (h : store)
    (ledger : Ledger) (dt : timestamp) : t * store * result unit :=
  let current_total_returns := returns (portfolio ledger) in
  match truediv (add (_previous_total_returns self) one)
                current_total_returns with
  | inl e => (self, h, inl (PyExn e))
  | inr quotient =>
      let todays_returns := sub quotient one in
      match _daily_returns self with
      | None => (self, h, inl (PyExn (Raise TypeError NoneType_setitem)))
      | Some series =>
          let self' :=
            {| _daily_returns :=
                 Some (Series_setitem series (normalize dt) todays_returns);
               _benchmark_returns := _benchmark_returns self;
               _previous_total_returns := current_total_returns;
               benchmark_returns := benchmark_returns self;
               daily_returns := daily_returns self |} in
          match packet_getitem p key with
          | inl e => (self', h, inl e)
          | inr r =>
              let h' :=
                store_set h r (dict_setitem (h r) "returns" todays_returns) in
              match packet_getitem p "cumulative_perf" with
              | inl e => (self', h', inl e)
              | inr r' =>
                  (self',
                   store_set h' r'
                     (dict_setitem (h' r') "returns" current_total_returns),
                   inr tt)
              end
          end
      end
  end.

Definition end_of_minute {D : Type} (self : t) (p : packet) (h : store)
    (ledger : Ledger) (dt : timestamp) (data_portal : D)
  : t * store * result unit :=
  _compute self "minute_perf" p h ledger dt.

Definition end_of_day {D : Type} (self : t) (p : packet) (h : store)
    (ledger : Ledger) (dt : timestamp) (data_portal : D)
  : t * store * result unit :=
  _compute self "daily_perf" p h ledger dt.

End Metric.

End Returns.

(** * Vocabulary of the properties *)

(** Shape of one slot: the dimensions after axis 0. *)
Definition payload (rb : RingBuffer.t) : list nat :=
  tl (Np.shape (RingBuffer._buffer rb)).

(** Items of the slot at axis-0 index [j]. *)
Definition slot (rb : RingBuffer.t) (j : nat) : list Z :=
  let n := Np.size (payload rb) in
  firstn n (skipn (j * n) (Np.data (RingBuffer._buffer rb))).

(** The slots, by axis-0 index. *)
Definition slots (rb : RingBuffer.t) : list (list Z) :=
  map (slot rb) (seq 0 (RingBuffer._capacity rb)).

(** The slots from the cursor on, around the end of the array: the next
    one to be overwritten comes first. *)
Definition logical (rb : RingBuffer.t) : list (list Z) :=
  map (fun j => slot rb ((RingBuffer._ix rb + j) mod RingBuffer._capacity rb))
      (seq 0 (RingBuffer._capacity rb)).

(** The invariant of the objects that [__init__] builds and the methods
    keep: the array has an axis 0, whose length is the capacity, it has as
    many items as its shape says, and the cursor is an index of axis 0
    (or 0 for an array of length 0). *)
Record wf (rb : RingBuffer.t) : Prop := {
  wf_shape :
    Np.shape (RingBuffer._buffer rb) = RingBuffer._capacity rb :: payload rb;
  wf_data :
    length (Np.data (RingBuffer._buffer rb))
    = RingBuffer._capacity rb * Np.size (payload rb);
  wf_ix :
    RingBuffer._ix rb < RingBuffer._capacity rb
    \/ (RingBuffer._capacity rb = 0 /\ RingBuffer._ix rb = 0)
}.

(** [as_slot sh element = Some zs]: [element] has exactly the shape [sh]
    and its items are representable, as the int64 values [zs]. *)
Definition as_slot (sh : list nat) (element : obj) : option (list Z) :=
  match Np.discover (length sh) element with
  | Some s =>
      if Np.shape_eqb s sh then
        match Np.pack_new (Np.leaves (length sh) element) with
        | inr zs => Some zs
        | inl _ => None
        end
      else None
  | None => None
  end.

(** The int64 values of the items that come before the first one that
    does not convert. *)
Fixpoint converted_prefix (items : list obj) : list Z :=
  match items with
  | [] => []
  | o :: items' =>
      match Np.to_int64 o with
      | inr z => z :: converted_prefix items'
      | inl _ => []
      end
  end.


(** The int64 sum of a list: the exact sum, wrapped. *)
Definition int64_sum (xs : list Z) : Z := Np.wrap64 (fold_left Z.add xs 0%Z).

(** Items of column [j] of a two-dimensional buffer. *)
Definition column (rb : RingBuffer.t) (j : nat) : list Z :=
  map (fun i => nth j (slot rb i) 0%Z) (seq 0 (RingBuffer._capacity rb)).

(** Two buffers in the middle of their life, for examples: three slots
    of two items with the cursor on the last slot, and three scalar slots
    with the cursor on the second. *)
Definition rb_3x2 : RingBuffer.t :=
  {| RingBuffer._buffer :=
       {| Np.shape := [3; 2]; Np.data := [1; 2; 3; 4; 5; 6]%Z |};
     RingBuffer._capacity := 3;
     RingBuffer._ix := 2 |}.

Definition rb_456 : RingBuffer.t :=
  {| RingBuffer._buffer := {| Np.shape := [3]; Np.data := [4; 5; 6]%Z |};
     RingBuffer._capacity := 3;
     RingBuffer._ix := 1 |}.



(** The states of the class's doctest: the buffer of 5 integers as
    built, after the pushes of 0..4 and after the push of 5 (which takes
    the place of the 0); the buffer of shape (5, 2) as built and after its
    five pushes. *)
Definition doctest_rb : RingBuffer.t :=
  {| RingBuffer._buffer := {| Np.shape := [5]; Np.data := [0; 0; 0; 0; 0]%Z |};
     RingBuffer._capacity := 5;
     RingBuffer._ix := 0 |}.

Definition doctest_rb5 : RingBuffer.t :=
  {| RingBuffer._buffer := {| Np.shape := [5]; Np.data := [0; 1; 2; 3; 4]%Z |};
     RingBuffer._capacity := 5;
     RingBuffer._ix := 0 |}.

Definition doctest_rb6 : RingBuffer.t :=
  {| RingBuffer._buffer := {| Np.shape := [5]; Np.data := [5; 1; 2; 3; 4]%Z |};
     RingBuffer._capacity := 5;
     RingBuffer._ix := 1 |}.

Definition doctest_rb2d : RingBuffer.t :=
  {| RingBuffer._buffer :=
       {| Np.shape := [5; 2]; Np.data := repeat 0%Z 10 |};
     RingBuffer._capacity := 5;
     RingBuffer._ix := 0 |}.

Definition doctest_rb2d5 : RingBuffer.t :=
  {| RingBuffer._buffer :=
       {| Np.shape := [5; 2];
          Np.data := [0; 1; 10; 11; 20; 21; 30; 31; 40; 41]%Z |};
     RingBuffer._capacity := 5;
     RingBuffer._ix := 0 |}.

(** The names that an instance of a class without bases has beside the
    ones of the class body, in CPython 3.11 ([dir(object)] and what the
    class statement adds), for examples. *)
Definition object_dir : list string :=
  ["__class__"; "__delattr__"; "__dict__"; "__dir__"; "__eq__";
   "__format__"; "__ge__"; "__getattribute__"; "__getstate__"; "__gt__";
   "__hash__";
   "__init_subclass__"; "__le__"; "__lt__"; "__module__"; "__ne__";
   "__new__"; "__reduce__"; "__reduce_ex__"; "__repr__"; "__setattr__";
   "__sizeof__"; "__str__"; "__subclasshook__"; "__weakref__"]%string.

(** ASCII control characters, and the strings that have none. *)
Definition control_char (c : ascii) : bool :=
  let n := nat_of_ascii c in (n <? 32) || (n =? 127).

Fixpoint printable (s : string) : bool :=
  match s with
  | EmptyString => true
  | String c s' => negb (control_char c) && printable s'
  end.

(** ** Vocabulary for the Returns metric *)

Section ReturnsVocabulary.

Context {N : Returns.Number} {T : Returns.Time}.

(** The value of the first row of a label, if the index has the label. *)
Definition Series_get (s : Returns.Series) (label : Returns.timestamp)
  : option Returns.num :=
  option_map snd
    (find (fun row => Returns.timestamp_eqb (fst row) label) s).

(** [d.get(k)] *)
Definition dict_get (d : Returns.dict) (k : string) : option Returns.num :=
  option_map snd (find (fun kv => String.eqb (fst kv) k) d).

(** The objects that come from [Returns()] by calls of its own methods
    only (nothing else assigns their attributes). *)
Inductive driven : Returns.t -> Prop :=
| driven_init : driven Returns.__init__
| driven_start self first_session last_session benchmark_source :
    driven self ->
    driven (Returns.start_of_simulation self first_session last_session
              benchmark_source)
| driven_minute self p h ledger dt :
    driven self ->
    driven (fst (fst (Returns.end_of_minute self p h ledger dt tt)))
| driven_day self p h ledger dt :
    driven self ->
    driven (fst (fst (Returns.end_of_day self p h ledger dt tt))).

End ReturnsVocabulary.

(** Numbers and timestamps for examples: exact rationals with [None] for
    [nan] and the division of Python floats; seconds, whose [normalize]
    is the start of the day. *)
Definition lift2 (f : Q -> Q -> Q) (a b : option Q) : option Q :=
  match a, b with
  | Some x, Some y => Some (Qred (f x y))
  | _, _ => None
  end.

Definition rational : Returns.Number :=
  {| Returns.num := option Q;
     Returns.zero := Some 0%Q;
     Returns.one := Some 1%Q;
     Returns.nan := None;
     Returns.add := lift2 Qplus;
     Returns.sub := lift2 Qminus;
     Returns.truediv := fun a b =>
       match a, b with
       | Some x, Some y =>
           if Qeq_bool y 0 then raise ZeroDivisionError "float division by zero"
           else inr (Some (Qred (x / y)))
       | _, _ => inr None
       end |}.

Definition seconds : Returns.Time :=
  {| Returns.timestamp := Z;
     Returns.timestamp_eqb := Z.eqb;
     Returns.normalize := fun t => (t - t mod 86400)%Z |}.

(** A metric after [start_of_simulation], and one whose
    [_daily_returns] was given a series of one day from outside; a packet
    with a dict for each period; a ledger whose portfolio has a total
    return of 1/2. *)
Definition returns_started : @Returns.t rational seconds :=
  @Returns.start_of_simulation rational seconds
    (@Returns.__init__ rational seconds) 0%Z 86400%Z
    (fun _ _ => [(0%Z, Some 1%Q)] : @Returns.Series rational seconds).

Definition one_day : @Returns.Series rational seconds := [(0%Z, @None Q)].

Definition returns_with_series : @Returns.t rational seconds :=
  {| Returns._daily_returns := Some one_day;
     Returns._benchmark_returns := None;
     Returns._previous_total_returns := Some 0%Q;
     Returns.benchmark_returns := None;
     Returns.daily_returns := None |}.

Definition example_packet : Returns.packet :=
  [("minute_perf"%string, 0); ("daily_perf"%string, 1);
   ("cumulative_perf"%string, 2)].

Definition empty_dicts : @Returns.store rational := fun _ => [].

Definition example_ledger : @Returns.Ledger rational :=
  @Returns.Build_Ledger rational
    (@Returns.Build_Portfolio rational (Some (1 # 2)%Q)).

(** * Lists: segments of a flat array *)

Section Segments.

Context {A : Type}.
Implicit Types (l seg : list A) (n off : nat).

Lemma nth_error_segment n off l k :
  nth_error (firstn n (skipn off l)) k
  = if k <? n then nth_error l (off + k) else None.
Proof. now rewrite nth_error_firstn, nth_error_skipn. Qed.

Lemma nth_error_splice n off l seg p :
  off + n <= length l -> length seg = n ->
  nth_error (firstn off l ++ seg ++ skipn (off + n) l) p
  = if p <? off then nth_error l p
    else if p <? off + n then nth_error seg (p - off)
    else nth_error l p.
Proof.
  intros Hl Hs.
  rewrite nth_error_app, length_firstn, Nat.min_l by lia.
  destruct (Nat.ltb_spec p off) as [Hp | Hp].
  - rewrite nth_error_firstn.
    destruct (Nat.ltb_spec p off); [reflexivity | lia].
  - rewrite nth_error_app, Hs.
    destruct (Nat.ltb_spec (p - off) n), (Nat.ltb_spec p (off + n));
      try lia; try reflexivity.
    rewrite nth_error_skipn. f_equal. lia.
Qed.

Lemma length_splice n off l seg :
  off + n <= length l -> length seg = n ->
  length (firstn off l ++ seg ++ skipn (off + n) l) = length l.
Proof.
  intros. rewrite !length_app, length_firstn, length_skipn. lia.
Qed.

Lemma splice_same n off l :
  firstn off l ++ firstn n (skipn off l) ++ skipn (off + n) l = l.
Proof.
  rewrite (Nat.add_comm off n), <- skipn_skipn.
  now rewrite (firstn_skipn n (skipn off l)), firstn_skipn.
Qed.

(** The slot that is written. *)
Lemma segment_splice_same c n i l seg :
  length l = c * n -> i < c -> length seg = n ->
  firstn n (skipn (i * n) (firstn (i * n) l ++ seg ++ skipn (i * n + n) l))
  = seg.
Proof.
  intros Hl Hi Hs. apply nth_error_ext. intros k.
  rewrite nth_error_segment, nth_error_splice by (trivial; nia).
  destruct (Nat.ltb_spec k n) as [Hk | Hk].
  - destruct (Nat.ltb_spec (i * n + k) (i * n)); [lia |].
    destruct (Nat.ltb_spec (i * n + k) (i * n + n)); [| lia].
    f_equal. lia.
  - symmetry. apply nth_error_None. lia.
Qed.

(** The other slots. *)
Lemma segment_splice_other c n i j l seg :
  length l = c * n -> i < c -> length seg = n -> j <> i ->
  firstn n (skipn (j * n) (firstn (i * n) l ++ seg ++ skipn (i * n + n) l))
  = firstn n (skipn (j * n) l).
Proof.
  intros Hl Hi Hs Hj. apply nth_error_ext. intros k.
  rewrite !nth_error_segment.
  destruct (Nat.ltb_spec k n) as [Hk | Hk]; [| reflexivity].
  rewrite nth_error_splice by (trivial; nia).
  destruct (Nat.ltb_spec (j * n + k) (i * n)); [reflexivity |].
  destruct (Nat.ltb_spec (j * n + k) (i * n + n)); [| reflexivity].
  exfalso. nia.
Qed.

(** An array is the concatenation of its slots. *)
Lemma concat_segments n c l :
  length l = c * n ->
  concat (map (fun j => firstn n (skipn (j * n) l)) (seq 0 c)) = l.
Proof.
  revert l. induction c as [| c IH]; intros l Hl.
  - destruct l; [reflexivity | discriminate].
  - cbn [seq map concat]. rewrite <- seq_shift, map_map.
    transitivity (firstn n l ++ skipn n l); [| apply firstn_skipn].
    f_equal.
    etransitivity;
      [| apply (IH (skipn n l)); rewrite length_skipn; lia].
    f_equal. apply map_ext. intros j.
    rewrite skipn_skipn. do 2 f_equal. lia.
Qed.

Lemma map_nth_seq (d : A) l :
  map (fun j => nth j l d) (seq 0 (length l)) = l.
Proof.
  induction l as [| a l IH]; [reflexivity |].
  cbn [length seq map nth]. f_equal.
  rewrite <- seq_shift, map_map. exact IH.
Qed.

Lemma concat_repeat_repeat (a : A) n c :
  concat (repeat (repeat a n) c) = repeat a (c * n).
Proof.
  induction c as [| c IH]; [reflexivity |].
  cbn [repeat concat Nat.mul]. now rewrite IH, repeat_app.
Qed.

Lemma Permutation_concat (ls ls' : list (list A)) :
  Permutation ls ls' -> Permutation (concat ls) (concat ls').
Proof.
  induction 1 as [| x l l' _ IH | x y l | l l' l'' _ IH1 _ IH2]; cbn [concat].
  - constructor.
  - now apply Permutation_app_head.
  - rewrite !app_assoc. apply Permutation_app_tail, Permutation_app_comm.
  - now transitivity (concat l').
Qed.

End Segments.

(** * Assignment of Python objects to array items *)

Lemma shape_eqb_eq s t : Np.shape_eqb s t = true <-> s = t.
Proof.
  revert t. induction s as [| a s IH]; intros [| b t]; cbn; try easy.
  rewrite andb_true_iff, Nat.eqb_eq, IH. split.
  - now intros [-> ->].
  - intros [= -> ->]. now split.
Qed.

Lemma shape_eqb_refl s : Np.shape_eqb s s = true.
Proof. now apply shape_eqb_eq. Qed.

Lemma length_flat_map_const {A B : Type} (f : A -> list B) k l :
  (forall x, In x l -> length (f x) = k) ->
  length (flat_map f l) = length l * k.
Proof.
  induction l as [| a l IH]; intros H; [reflexivity |].
  cbn [flat_map length Nat.mul]. rewrite length_app, H by now left.
  f_equal. apply IH. intros x Hx. apply H. now right.
Qed.

(** A sequence of shape [s] has as many items as an array of shape [s]. *)
Lemma discover_leaves_length n v s :
  Np.discover n v = Some s -> length (Np.leaves n v) = Np.size s.
Proof.
  revert v s. induction n as [| n IH]; intros [z | | xs] s; cbn;
    try discriminate; try (intros [= <-]; reflexivity).
  destruct xs as [| x rest]; [intros [= <-]; reflexivity |].
  destruct (Np.discover n x) as [s0 |] eqn:Hx; [| discriminate].
  destruct (forallb _ rest) eqn:Hrest; [| discriminate].
  intros [= <-]. rewrite forallb_forall in Hrest.
  change (length (flat_map (Np.leaves n) (x :: rest))
          = length (x :: rest) * Np.size s0).
  apply length_flat_map_const. intros y [<- | Hy]; [now apply IH |].
  specialize (Hrest y Hy).
  destruct (Np.discover n y) as [t |] eqn:Ht; [| discriminate].
  apply shape_eqb_eq in Hrest. subst t. now apply IH.
Qed.

Lemma pack_new_length items zs :
  Np.pack_new items = inr zs -> length zs = length items.
Proof.
  unfold Np.pack_new. revert zs.
  induction items as [| o items IH]; cbn; intros zs.
  - now intros [= <-].
  - destruct (Np.to_int64 o) as [e | z]; cbn; [discriminate |].
    destruct (sequence (map Np.to_int64 items)) as [e | l]; cbn;
      [discriminate |].
    intros [= <-]. cbn. f_equal. now apply IH.
Qed.

(** Items that all convert fill a destination of their number. *)
Lemma pack_into_all items : forall dst zs,
  Np.pack_new items = inr zs -> length dst = length items ->
  Np.pack_into dst items = (zs, None).
Proof.
  unfold Np.pack_new.
  induction items as [| o items IH]; intros [| old dst] zs; cbn;
    try discriminate.
  - now intros [= <-].
  - destruct (Np.to_int64 o) as [e | z]; cbn; [discriminate |].
    destruct (sequence (map Np.to_int64 items)) as [e | l] eqn:Hl; cbn;
      [discriminate |].
    intros [= <-] [= Hlen]. now rewrite (IH dst l).
Qed.

(** Storing into a destination never changes the number of its items. *)
Lemma pack_into_length items : forall dst,
  length (fst (Np.pack_into dst items)) = length dst.
Proof.
  induction items as [| o items IH]; intros [| old dst]; cbn; trivial.
  destruct (Np.to_int64 o) as [e | z]; [reflexivity |].
  specialize (IH dst). destruct (Np.pack_into dst items). cbn in *.
  now rewrite IH.
Qed.

(** A well-shaped, representable element is stored as it is. *)
Lemma assign_as_slot sh dst element zs :
  as_slot sh element = Some zs -> length dst = Np.size sh ->
  Np.assign sh dst element = (zs, inr tt) /\ length zs = Np.size sh.
Proof.
  unfold as_slot, Np.assign. intros H Hdst.
  destruct (Np.discover (length sh) element) as [s |] eqn:Hs;
    [| discriminate].
  destruct (Np.shape_eqb s sh) eqn:Heq; [| discriminate].
  destruct (Np.pack_new _) as [e | l] eqn:Hl; [discriminate |].
  injection H as ->. apply shape_eqb_eq in Heq. subst s.
  pose proof (discover_leaves_length _ _ _ Hs) as Hn.
  pose proof (pack_new_length _ _ Hl) as Hz.
  rewrite (pack_into_all _ dst zs Hl) by congruence.
  split; [reflexivity | congruence].
Qed.

(** When an assignment raises, the destination keeps its length; it keeps
    its items too unless the object has exactly the destination's shape. *)
Lemma assign_raises sh dst v d e :
  Np.assign sh dst v = (d, inl e) ->
  length d = length dst
  /\ (Np.discover (length sh) v <> Some sh -> d = dst).
Proof.
  unfold Np.assign.
  destruct (Np.discover (length sh) v) as [s |] eqn:Hs.
  - destruct (Np.shape_eqb s sh) eqn:Heq.
    + apply shape_eqb_eq in Heq. subst s.
      pose proof (pack_into_length (Np.leaves (length sh) v) dst) as Hlen.
      destruct (Np.pack_into dst _) as [d' [e' |]]; intros [= <- <-].
      split; [exact Hlen | congruence].
    + destruct (Np.pack_new _) as [e' | tmp].
      * intros [= <- <-]. now split.
      * destruct (Np.broadcast s tmp sh); [discriminate |].
        intros [= <- <-]. now split.
  - intros [= <- <-]. now split.
Qed.

(** A scalar that does not convert leaves the destination as it was. *)
Lemma assign_scalar_raises sh dst v d e :
  (forall xs, v <> PyList xs) ->
  Np.assign sh dst v = (d, inl e) -> d = dst.
Proof.
  intros Hv. unfold Np.assign.
  assert (Hd : forall n, Np.discover n v = Some []).
  { intros [| n]; destruct v; try reflexivity; now destruct (Hv xs). }
  assert (Hl : forall n, Np.leaves n v = [v]).
  { intros [| n]; destruct v; try reflexivity; now destruct (Hv xs). }
  rewrite Hd, Hl. destruct sh as [| c sh]; cbn.
  - destruct dst as [| old dst]; cbn; [discriminate |].
    destruct (Np.to_int64 v) as [e' | z]; [now intros [= <- <-] |].
    discriminate.
  - unfold Np.pack_new. cbn.
    destruct (Np.to_int64 v) as [e' | z]; cbn; [now intros [= <- <-] |].
    destruct (Np.broadcast _ _ _); [discriminate | now intros [= <- <-]].
Qed.

Lemma broadcast_scalar {A : Type} (z : A) sh :
  Np.broadcast [] [z] sh = Some (repeat z (Np.size sh)).
Proof.
  induction sh as [| d sh IH]; [reflexivity |].
  cbn [Np.broadcast length]. cbn [Nat.ltb Nat.leb].
  rewrite IH. cbn [option_map Np.size fold_right].
  now rewrite concat_repeat_repeat.
Qed.

(** * The ring buffer: one push *)

Lemma mod_wrap a c : c <= a < 2 * c -> a mod c = a - c.
Proof. intros H. symmetry. apply Nat.mod_unique with (q := 1); lia. Qed.

Lemma map_seq_add {B : Type} (g : nat -> B) c : forall a,
  map g (seq a c) = map (fun j => g (a + j)) (seq 0 c).
Proof.
  induction c as [| c IH]; intros a; [reflexivity |].
  cbn [seq map]. rewrite Nat.add_0_r. f_equal.
  rewrite IH, <- seq_shift, map_map. apply map_ext. intros j.
  f_equal. lia.
Qed.

(** What [push] does with a well-shaped, representable element. *)
Lemma push_as_slot rb element zs :
  wf rb -> RingBuffer._ix rb < RingBuffer._capacity rb ->
  as_slot (payload rb) element = Some zs ->
  let n := Np.size (payload rb) in
  let off := RingBuffer._ix rb * n in
  let d := Np.data (RingBuffer._buffer rb) in
  length zs = n
  /\ RingBuffer.push rb element
     = ({| RingBuffer._buffer :=
             {| Np.shape := Np.shape (RingBuffer._buffer rb);
                Np.data := firstn off d ++ zs ++ skipn (off + n) d |};
           RingBuffer._capacity := RingBuffer._capacity rb;
           RingBuffer._ix :=
             (RingBuffer._ix rb + 1) mod RingBuffer._capacity rb |},
        inr tt).
Proof.
  intros [Hsh Hd _] Hix Hel.
  destruct rb as [[sh d] c i]. unfold payload in *. cbn in *.
  destruct sh as [| c0 p]; [discriminate |].
  injection Hsh as ->. cbn in *.
  change (fold_right Nat.mul 1 p) with (Np.size p) in *.
  assert (Hseg : length (firstn (Np.size p) (skipn (i * Np.size p) d))
                 = Np.size p).
  { rewrite length_firstn, length_skipn.
    assert (i * Np.size p + Np.size p <= c * Np.size p) by nia. lia. }
  destruct (assign_as_slot _ _ _ _ Hel Hseg) as [Ha Hz].
  split; [exact Hz |].
  unfold RingBuffer.push, Np.setitem_int. cbn.
  destruct (Nat.leb_spec c i) as [Hle | _]; [lia |].
  rewrite Ha. destruct c as [| c']; [lia | reflexivity].
Qed.

(** The state after such a push, slot by slot. *)
Lemma push_slots rb element zs :
  wf rb -> RingBuffer._ix rb < RingBuffer._capacity rb ->
  as_slot (payload rb) element = Some zs ->
  exists rb',
    RingBuffer.push rb element = (rb', inr tt)
    /\ wf rb'
    /\ Np.shape (RingBuffer._buffer rb') = Np.shape (RingBuffer._buffer rb)
    /\ RingBuffer._capacity rb' = RingBuffer._capacity rb
    /\ RingBuffer._ix rb'
       = (RingBuffer._ix rb + 1) mod RingBuffer._capacity rb
    /\ slot rb' (RingBuffer._ix rb) = zs
    /\ (forall j, j <> RingBuffer._ix rb -> slot rb' j = slot rb j).
Proof.
  intros Hwf Hix Hel.
  destruct (push_as_slot rb element zs Hwf Hix Hel) as [Hz Hp].
  destruct Hwf as [Hsh Hd Hi].
  eexists. split; [exact Hp |].
  unfold slot, payload in *. cbn.
  set (n := Np.size (tl (Np.shape (RingBuffer._buffer rb)))) in *.
  split; [| repeat split].
  - constructor; unfold payload; cbn; fold n.
    + exact Hsh.
    + rewrite length_splice; trivial. nia.
    + left. apply Nat.mod_upper_bound. lia.
  - exact (segment_splice_same _ _ _ _ _ Hd Hix Hz).
  - intros j Hj. exact (segment_splice_other _ _ _ _ _ _ Hd Hix Hz Hj).
Qed.

(** * The ring buffer as a queue of [capacity] slots *)

(** A push drops the slot under the cursor, the oldest one, and makes the
    element the newest one. *)
Lemma logical_push rb rb' zs :
  RingBuffer._ix rb < RingBuffer._capacity rb ->
  RingBuffer._capacity rb' = RingBuffer._capacity rb ->
  RingBuffer._ix rb' = (RingBuffer._ix rb + 1) mod RingBuffer._capacity rb ->
  slot rb' (RingBuffer._ix rb) = zs ->
  (forall j, j <> RingBuffer._ix rb -> slot rb' j = slot rb j) ->
  logical rb' = tl (logical rb) ++ [zs].
Proof.
  intros Hix Hc Hi Hs Ho. unfold logical. rewrite Hc, Hi.
  remember (RingBuffer._capacity rb) as c eqn:Ec.
  remember (RingBuffer._ix rb) as i eqn:Ei.
  clear Ec Ei Hc Hi. destruct c as [| c']; [lia |].
  rewrite seq_S at 1. cbn [seq map tl]. rewrite map_app. cbn [map].
  rewrite <- seq_shift, map_map. f_equal.
  - apply map_ext_in. intros j Hj. apply in_seq in Hj.
    rewrite Nat.Div0.add_mod_idemp_l.
    replace (i + 1 + j) with (i + S j) by lia.
    apply Ho. intros E.
    destruct (Nat.lt_ge_cases (i + S j) (S c')) as [Hlt | Hge].
    + rewrite Nat.mod_small in E by lia. lia.
    + rewrite mod_wrap in E by lia. lia.
  - f_equal. rewrite Nat.Div0.add_mod_idemp_l.
    replace ((i + 1 + (0 + c')) mod (S c')) with i; [exact Hs |].
    rewrite mod_wrap by lia. lia.
Qed.

(** After the pushes of well-shaped, representable elements the buffer
    holds the last [capacity] of them, after what is left of the slots it
    had. *)
Lemma push_each_logical es : forall ws rb,
  Forall2 (fun e w => as_slot (payload rb) e = Some w) es ws ->
  wf rb -> RingBuffer._ix rb < RingBuffer._capacity rb ->
  exists rb',
    RingBuffer.push_each rb es = (rb', inr tt)
    /\ wf rb'
    /\ RingBuffer._capacity rb' = RingBuffer._capacity rb
    /\ payload rb' = payload rb
    /\ logical rb' = skipn (length ws) (logical rb ++ ws).
Proof.
  induction es as [| e es IH]; intros ws rb Hes Hwf Hix.
  - inversion Hes; subst. exists rb. cbn. now rewrite app_nil_r.
  - inversion Hes as [| e' w es' ws' Hew Hrest]; subst.
    destruct (push_slots rb e w Hwf Hix Hew)
      as (rb1 & Hp & Hwf1 & Hsh1 & Hc1 & Hi1 & Hs1 & Ho1).
    assert (Hpl : payload rb1 = payload rb) by (unfold payload; congruence).
    assert (Hix1 : RingBuffer._ix rb1 < RingBuffer._capacity rb1).
    { rewrite Hi1, Hc1. apply Nat.mod_upper_bound. lia. }
    destruct (IH ws' rb1) as (rb' & Hp' & Hwf' & Hc' & Hpl' & Hl');
      trivial.
    { now rewrite Hpl. }
    exists rb'. cbn [RingBuffer.push_each]. rewrite Hp.
    split; [exact Hp' |]. split; [exact Hwf' |].
    split; [congruence |]. split; [congruence |].
    rewrite Hl', (logical_push rb rb1 w) by trivial.
    assert (Hne : logical rb <> []).
    { unfold logical. destruct (RingBuffer._capacity rb); [lia |].
      discriminate. }
    destruct (logical rb) as [| old l]; [contradiction |].
    cbn [tl length skipn app]. now rewrite <- app_assoc.
Qed.

(** [c] consecutive positions of a sequence of period [c] carry each of
    its values once. *)
Lemma Permutation_period {B : Type} (f : nat -> B) c a :
  Permutation (map (fun j => f (j mod c)) (seq a c)) (map f (seq 0 c)).
Proof.
  induction a as [| a IH].
  - erewrite map_ext_in; [reflexivity |].
    intros j Hj. apply in_seq in Hj. cbn beta. now rewrite Nat.mod_small by lia.
  - etransitivity; [| exact IH].
    apply Permutation_cons_inv with (a := f (a mod c)).
    change (f (a mod c) :: map (fun j => f (j mod c)) (seq (S a) c))
      with (map (fun j => f (j mod c)) (seq a (S c))).
    rewrite seq_S, map_app. cbn [map].
    replace ((a + c) mod c) with (a mod c).
    + symmetry. apply Permutation_cons_append.
    + replace (a + c) with (a + 1 * c) by lia.
      now rewrite Nat.Div0.mod_add.
Qed.

Lemma logical_slots rb : Permutation (logical rb) (slots rb).
Proof.
  unfold logical, slots.
  rewrite <- (map_seq_add
                (fun j => slot rb (j mod RingBuffer._capacity rb))).
  apply Permutation_period.
Qed.

Lemma concat_slots rb :
  wf rb -> concat (slots rb) = Np.data (RingBuffer._buffer rb).
Proof. intros [_ Hd _]. unfold slots, slot. now apply concat_segments. Qed.

Lemma length_logical rb : length (logical rb) = RingBuffer._capacity rb.
Proof. unfold logical. now rewrite length_map, length_seq. Qed.


(** * Reductions do not depend on the order of the items *)

Lemma fold_left_Permutation {B C : Type} (f : B -> C -> B) :
  (forall a x y, f (f a x) y = f (f a y) x) ->
  forall xs ys, Permutation xs ys ->
  forall a, fold_left f xs a = fold_left f ys a.
Proof.
  intros Hf xs ys HP.
  induction HP as [| x l l' _ IH | x y l | l l' l'' _ IH1 _ IH2]; intros a;
    cbn.
  - reflexivity.
  - apply IH.
  - now rewrite Hf.
  - now rewrite IH1.
Qed.

Lemma wrap64_add_l a b : Np.wrap64 (Np.wrap64 a + b) = Np.wrap64 (a + b).
Proof.
  unfold Np.wrap64. f_equal.
  replace ((a + 2 ^ 63) mod 2 ^ 64 - 2 ^ 63 + b + 2 ^ 63)%Z
    with ((a + 2 ^ 63) mod 2 ^ 64 + b)%Z by lia.
  rewrite Zplus_mod_idemp_l. f_equal. lia.
Qed.

Lemma wrap64_mul_l a b : Np.wrap64 (Np.wrap64 a * b) = Np.wrap64 (a * b).
Proof.
  unfold Np.wrap64. f_equal.
  rewrite <- (Zplus_mod_idemp_l (_ * b)), <- (Zplus_mod_idemp_l (a * b)).
  f_equal. f_equal.
  rewrite <- (Zmult_mod_idemp_l (_ - _)), <- (Zmult_mod_idemp_l a).
  f_equal. f_equal.
  rewrite <- Zminus_mod_idemp_l, Zmod_mod, Zminus_mod_idemp_l.
  f_equal. lia.
Qed.

Lemma wrap64_small z : Np.in_int64 z = true -> Np.wrap64 z = z.
Proof.
  unfold Np.in_int64, Np.int64_min, Np.int64_max, Np.wrap64.
  rewrite andb_true_iff, !Z.leb_le. intros [Hlo Hhi].
  rewrite Z.mod_small; lia.
Qed.

(** The wrapped running sum is the exact sum, wrapped once. *)
Lemma fold_wrap64_add xs : forall a,
  fold_left (fun acc x => Np.wrap64 (acc + x)) xs (Np.wrap64 a)
  = Np.wrap64 (fold_left Z.add xs a).
Proof.
  induction xs as [| x xs IH]; intros a; cbn; [reflexivity |].
  now rewrite wrap64_add_l, IH.
Qed.

Lemma sum_int64_sum xs :
  fold_left (fun acc x => Np.wrap64 (acc + x)) xs 0%Z = int64_sum xs.
Proof. exact (fold_wrap64_add xs 0%Z). Qed.

Lemma fold_left_max_init xs : forall a b,
  fold_left Z.max xs (Z.max a b) = Z.max a (fold_left Z.max xs b).
Proof.
  induction xs as [| x xs IH]; intros a b; cbn; [reflexivity |].
  now rewrite <- Z.max_assoc, IH.
Qed.

Lemma fold_left_min_init xs : forall a b,
  fold_left Z.min xs (Z.min a b) = Z.min a (fold_left Z.min xs b).
Proof.
  induction xs as [| x xs IH]; intros a b; cbn; [reflexivity |].
  now rewrite <- Z.min_assoc, IH.
Qed.

Lemma max_Permutation x xs y ys :
  Permutation (x :: xs) (y :: ys) ->
  fold_left Z.max xs x = fold_left Z.max ys y.
Proof.
  intros HP.
  assert (H : forall a, Z.max a (fold_left Z.max xs x)
                        = Z.max a (fold_left Z.max ys y)).
  { intros a. rewrite <- !fold_left_max_init.
    apply (fold_left_Permutation Z.max) with (xs := x :: xs) (ys := y :: ys);
      trivial.
    intros; lia. }
  pose proof (H (fold_left Z.max xs x)). pose proof (H (fold_left Z.max ys y)).
  lia.
Qed.

Lemma min_Permutation x xs y ys :
  Permutation (x :: xs) (y :: ys) ->
  fold_left Z.min xs x = fold_left Z.min ys y.
Proof.
  intros HP.
  assert (H : forall a, Z.min a (fold_left Z.min xs x)
                        = Z.min a (fold_left Z.min ys y)).
  { intros a. rewrite <- !fold_left_min_init.
    apply (fold_left_Permutation Z.min) with (xs := x :: xs) (ys := y :: ys);
      trivial.
    intros; lia. }
  pose proof (H (fold_left Z.min xs x)). pose proof (H (fold_left Z.min ys y)).
  lia.
Qed.

Lemma forallb_Permutation {B : Type} (p : B -> bool) xs ys :
  Permutation xs ys -> forallb p xs = forallb p ys.
Proof.
  induction 1 as [| x l l' _ IH | x y l | l l' l'' _ IH1 _ IH2]; cbn;
    try congruence.
  now rewrite !andb_assoc, (andb_comm (p y)).
Qed.

Lemma existsb_Permutation {B : Type} (p : B -> bool) xs ys :
  Permutation xs ys -> existsb p xs = existsb p ys.
Proof.
  induction 1 as [| x l l' _ IH | x y l | l l' l'' _ IH1 _ IH2]; cbn;
    try congruence.
  now rewrite !orb_assoc, (orb_comm (p y)).
Qed.

(** [length a] is fuel enough for [pairwise_sum]: with that much or more
    the recursion never comes to the end of it. *)
Lemma pairwise_sum_fuel f1 : forall f2 a,
  length a <= f1 -> length a <= f2 ->
  Np.pairwise_sum f1 a = Np.pairwise_sum f2 a.
Proof.
  induction f1 as [| f1 IH]; intros f2 a H1 H2.
  - destruct a; [| cbn in H1; lia]. now destruct f2.
  - destruct f2 as [| f2]; [destruct a; [reflexivity | cbn in H2; lia] |].
    cbn [Np.pairwise_sum]. cbv zeta.
    destruct (Nat.ltb_spec (length a) 8) as [| H8]; [reflexivity |].
    destruct (Nat.leb_spec (length a) Np.PW_BLOCKSIZE) as [| Hb];
      [reflexivity |].
    unfold Np.PW_BLOCKSIZE in Hb.
    set (n2 := length a / 2 - (length a / 2) mod 8).
    assert (Hn2 : 0 < n2 < length a).
    { unfold n2.
      pose proof (Nat.div_mod_eq (length a) 2).
      pose proof (Nat.mod_upper_bound (length a) 2).
      pose proof (Nat.mod_upper_bound (length a / 2) 8). lia. }
    f_equal; apply IH; rewrite ?length_firstn, ?length_skipn; lia.
Qed.

(** A reduction of a lane with an integer or boolean result is a function
    of the multiset of its items. *)
Lemma reduce1_Permutation r xs ys :
  Np.float_result r = false ->
  Permutation xs ys -> Np.reduce1 r xs = Np.reduce1 r ys.
Proof.
  intros Hr HP.
  assert (Hnil : xs = [] <-> ys = []).
  { split; intros ->.
    - now apply Permutation_nil.
    - now apply Permutation_nil, Permutation_sym. }
  destruct r; cbn [Np.reduce1].
  - now rewrite (forallb_Permutation _ _ _ HP).
  - now rewrite (existsb_Permutation _ _ _ HP).
  - destruct xs as [| x xs], ys as [| y ys]; trivial;
      try (now destruct Hnil as [H1 H2]; (discriminate H1 || discriminate H2)).
    now rewrite (max_Permutation _ _ _ _ HP).
  - discriminate Hr.
  - destruct xs as [| x xs], ys as [| y ys]; trivial;
      try (now destruct Hnil as [H1 H2]; (discriminate H1 || discriminate H2)).
    now rewrite (min_Permutation _ _ _ _ HP).
  - do 2 f_equal. apply fold_left_Permutation; trivial.
    intros a x y. rewrite !wrap64_mul_l.
    f_equal. ring.
  - discriminate Hr.
  - do 2 f_equal. apply fold_left_Permutation; trivial.
    intros a x y. rewrite !wrap64_add_l. f_equal. ring.
Qed.

(** * The invariant *)

Lemma chunks_length {B : Type} n k : forall l : list B,
  length l = k * n ->
  length (Np.chunks n k l) = k
  /\ Forall (fun c => length c = n) (Np.chunks n k l).
Proof.
  induction k as [| k IH]; intros l Hl; cbn [Np.chunks].
  - split; [reflexivity | constructor].
  - destruct (IH (skipn n l)) as [H1 H2].
    { rewrite length_skipn. lia. }
    split; [cbn; now rewrite H1 |].
    constructor; [| exact H2]. rewrite length_firstn. lia.
Qed.

Lemma all_some_Forall2 {B C : Type} (f : B -> option C) l : forall ls,
  Np.all_some (map f l) = Some ls ->
  Forall2 (fun x y => f x = Some y) l ls.
Proof.
  induction l as [| x l IH]; intros ls; cbn.
  - intros [= <-]. constructor.
  - destruct (f x) as [y |] eqn:Hx; [| discriminate].
    destruct (Np.all_some (map f l)) as [ls' |]; [| discriminate].
    intros [= <-]. constructor; [exact Hx | now apply IH].
Qed.

Lemma length_concat_const {B : Type} n (ls : list (list B)) :
  Forall (fun c => length c = n) ls -> length (concat ls) = length ls * n.
Proof.
  induction 1 as [| c ls Hc _ IH]; [reflexivity |].
  cbn. now rewrite length_app, Hc, IH.
Qed.

(** A broadcast array has the number of items of the destination. *)
Lemma broadcast_length {A : Type} dst_shape :
  forall src_shape (src d : list A),
  length src = Np.size src_shape ->
  Np.broadcast src_shape src dst_shape = Some d ->
  length d = Np.size dst_shape.
Proof.
  induction dst_shape as [| d0 dst' IH]; intros src_shape src d Hsrc;
    cbn [Np.broadcast].
  - destruct src_shape; [| discriminate]. now intros [= <-].
  - assert (Hrep : forall sub : list A, length sub = Np.size dst' ->
                   length (concat (repeat sub d0)) = Np.size (d0 :: dst')).
    { intros sub Hsub.
      rewrite (length_concat_const (Np.size dst')), repeat_length;
        [reflexivity |].
      apply Forall_forall. intros c Hc. apply repeat_spec in Hc. now subst c. }
    destruct (length src_shape <? length (d0 :: dst')).
    + destruct (Np.broadcast src_shape src dst') as [sub |] eqn:Hb;
        [| discriminate].
      intros [= <-]. apply Hrep. now apply (IH src_shape src).
    + destruct src_shape as [| s src']; [discriminate |].
      change (Np.size (s :: src')) with (s * Np.size src') in Hsrc.
      destruct (Nat.eqb_spec s d0) as [-> | _].
      * destruct (Np.all_some _) as [ls |] eqn:Hall; [| discriminate].
        intros [= <-]. apply all_some_Forall2 in Hall.
        destruct (chunks_length (Np.size src') d0 src Hsrc) as [Hk Hc].
        rewrite (length_concat_const (Np.size dst')).
        -- rewrite <- (Forall2_length Hall), Hk. reflexivity.
        -- clear Hk. induction Hall as [| c y cs ys Hcy _ IHall];
             constructor.
           ++ inversion Hc; subst. now apply (IH src' c).
           ++ apply IHall. now inversion Hc.
      * destruct (Nat.eqb_spec s 1) as [-> | _]; [| discriminate].
        destruct (Np.broadcast src' src dst') as [sub |] eqn:Hb;
          [| discriminate].
        intros [= <-]. apply Hrep. apply (IH src' src); [lia | exact Hb].
Qed.

(** An assignment, whether it returns or raises, keeps the number of
    items of the destination. *)
Lemma assign_length sh dst v :
  length dst = Np.size sh ->
  length (fst (Np.assign sh dst v)) = Np.size sh.
Proof.
  intros Hdst. unfold Np.assign.
  destruct (Np.discover (length sh) v) as [s |] eqn:Hs; [| exact Hdst].
  destruct (Np.shape_eqb s sh).
  - pose proof (pack_into_length (Np.leaves (length sh) v) dst) as H.
    destruct (Np.pack_into dst _) as [d [e |]]; cbn in *; congruence.
  - destruct (Np.pack_new _) as [e | tmp] eqn:Ht; [exact Hdst |].
    destruct (Np.broadcast s tmp sh) as [d |] eqn:Hb; [| exact Hdst].
    cbn. apply (broadcast_length _ _ _ _ (eq_trans (pack_new_length _ _ Ht)
                                            (discover_leaves_length _ _ _ Hs)) Hb).
Qed.

Lemma size_strip_ones k : forall s, Np.size (Np.strip_ones k s) = Np.size s.
Proof.
  induction k as [| k IH]; intros s; [now destruct s |].
  destruct s as [| [| [| n]] s]; cbn [Np.strip_ones]; trivial.
  rewrite IH. change (Np.size (1 :: s)) with (1 * Np.size s). lia.
Qed.

Lemma sequence_length {B : Type} (rs : list (result B)) : forall l,
  sequence rs = inr l -> length l = length rs.
Proof.
  induction rs as [| [e | b] rs IH]; intros l; cbn.
  - now intros [= <-].
  - discriminate.
  - destruct (sequence rs) as [e | l']; cbn; [discriminate |].
    intros [= <-]. cbn. f_equal. now apply IH.
Qed.

(** The dimensions that [np.empty] accepts are not negative. *)
Lemma check_dims_nonneg dims : forall n,
  Np.check_dims n dims = inr tt -> Forall (fun d => (0 <= d)%Z) dims.
Proof.
  induction dims as [| d dims IH]; intros n; cbn [Np.check_dims];
    [constructor |].
  destruct (Z.eqb_spec d 0) as [-> | Hd].
  - intros Hc. constructor; [lia | now apply (IH n)].
  - destruct (Z.ltb_spec d 0); [discriminate |].
    destruct (_ <? _)%Z; [discriminate |].
    intros Hc. constructor; [lia | now apply (IH _ Hc)].
Qed.

(** [np.empty] returns an array of the requested shape, or raises. *)
Lemma empty_returns s t a :
  Np.empty s t = inr a ->
  a = {| Np.shape := map Z.to_nat (Np.dims_of s);
         Np.data := repeat 0%Z (Np.size (map Z.to_nat (Np.dims_of s))) |}
  /\ Forall (fun d => (0 <= d)%Z) (Np.dims_of s).
Proof.
  unfold Np.empty. cbv zeta.
  destruct (_ <? _); [discriminate |].
  destruct (negb _); [discriminate |].
  destruct (Np.check_dims 8 (Np.dims_of s)) as [e | []] eqn:Hc;
    cbn [bind]; [discriminate |].
  intros [= <-]. split; [reflexivity | now apply check_dims_nonneg in Hc].
Qed.

(** [np.copyto] keeps the shape and the number of items of its
    destination. *)
Lemma copyto_returns a v a' :
  Np.copyto a v = inr a' ->
  Np.shape a' = Np.shape a
  /\ length (Np.data a') = Np.size (Np.shape a).
Proof.
  unfold Np.copyto.
  destruct (Np.discover _ v) as [s |] eqn:Hs; [| discriminate].
  cbv zeta. destruct (Np.broadcast _ _ _) as [copied |] eqn:Hb;
    [| discriminate].
  destruct (sequence _) as [e | d] eqn:Hd; cbn [bind]; [discriminate |].
  intros [= <-]. split; [reflexivity |]. cbn [Np.data].
  apply sequence_length in Hd. rewrite Hd, length_map.
  apply broadcast_length in Hb; [exact Hb |].
  rewrite size_strip_ones. now apply discover_leaves_length.
Qed.

(** [np.full] returns an array of the requested shape, or raises. *)
Lemma full_shape s v t a :
  Np.full s v t = inr a ->
  Np.shape a = map Z.to_nat (Np.dims_of s)
  /\ length (Np.data a) = Np.size (Np.shape a)
  /\ Forall (fun d => (0 <= d)%Z) (Np.dims_of s).
Proof.
  unfold Np.full.
  destruct (Np.empty s t) as [e | a0] eqn:He; cbn [bind]; [discriminate |].
  intros Hc. destruct (empty_returns _ _ _ He) as [-> Hpos].
  destruct (copyto_returns _ _ _ Hc) as [Hsh Hlen]. cbn [Np.shape] in *.
  rewrite Hsh. now repeat split.
Qed.

(** What [__init__] builds satisfies the invariant. *)
Lemma init_wf shape fill_value dtype rb :
  RingBuffer.__init__ shape fill_value dtype = inr rb -> wf rb.
Proof.
  unfold RingBuffer.__init__.
  destruct (Np.full shape fill_value dtype) as [e | a] eqn:Hf;
    cbn [bind]; [discriminate |].
  destruct (full_shape _ _ _ _ Hf) as (_ & Hlen & _).
  destruct (Np.shape a) as [| c p] eqn:Hsh; [discriminate |].
  intros [= <-].
  constructor; unfold payload;
    cbn [RingBuffer._buffer RingBuffer._capacity RingBuffer._ix];
    rewrite ?Hsh; cbn [tl]; trivial.
  destruct c; [right; now split | left; lia].
Qed.

(** [push] and [fill] keep the invariant, whether they return or raise. *)
Lemma do_call_wf rb c : wf rb -> wf (fst (RingBuffer.do_call rb c)).
Proof.
  intros [Hsh Hd Hi]. destruct rb as [[sh d] cap i]. unfold payload in *.
  cbn [RingBuffer._buffer RingBuffer._capacity RingBuffer._ix
       Np.shape Np.data] in *.
  destruct sh as [| c0 p]; [discriminate |]. injection Hsh as ->.
  cbn [tl] in *.
  destruct c as [element | value]; cbn [RingBuffer.do_call].
  - unfold RingBuffer.push, Np.setitem_int.
    cbn [RingBuffer._buffer RingBuffer._capacity RingBuffer._ix
         Np.shape Np.data].
    destruct (Nat.leb_spec cap i) as [Hle | Hlt].
    + constructor; unfold payload; cbn; trivial.
    + set (n := Np.size p) in *.
      assert (Hoff : i * n + n <= cap * n) by nia.
      assert (Hseg : length (firstn n (skipn (i * n) d)) = n).
      { rewrite length_firstn, length_skipn. lia. }
      pose proof (assign_length p _ element Hseg) as Hlen.
      destruct (Np.assign p (firstn n (skipn (i * n) d)) element)
        as [s r]. cbn [fst] in Hlen.
      assert (Hdata : length (firstn (i * n) d ++ s ++ skipn (i * n + n) d)
                      = cap * n).
      { rewrite length_splice; trivial. lia. }
      destruct r as [e | u].
      * constructor; unfold payload; cbn; trivial.
      * destruct cap as [| cap']; [lia |].
        constructor; unfold payload; cbn [fst RingBuffer._buffer
          RingBuffer._capacity RingBuffer._ix Np.shape Np.data tl]; trivial.
        left. apply Nat.mod_upper_bound. lia.
  - unfold RingBuffer.fill, Np.setitem_all.
    cbn [RingBuffer._buffer RingBuffer._capacity RingBuffer._ix
         Np.shape Np.data].
    pose proof (assign_length (cap :: p) d value Hd) as Hlen.
    destruct (Np.assign (cap :: p) d value) as [s r]. cbn [fst] in *.
    constructor; unfold payload; cbn; trivial.
Qed.

Lemma do_calls_wf cs : forall rb,
  wf rb -> wf (RingBuffer.do_calls rb cs).
Proof.
  unfold RingBuffer.do_calls.
  induction cs as [| c cs IH]; intros rb Hwf; cbn [fold_left]; trivial.
  now apply IH, do_call_wf.
Qed.

(** * The claims *)

Lemma wf_rb_3x2 : wf rb_3x2.
Proof. constructor; cbn; auto. Defined.

Lemma wf_rb_456 : wf rb_456.
Proof. constructor; cbn; auto. Defined.

(** C1. For a buffer of capacity [c >= 1] with its cursor [i] in
    [[0, c)], [push] of an element that has the shape of a slot and whose
    items are representable (as the int64 values [zs]) returns, writes
    [zs] into the slot at axis-0 index [i], leaves every other slot, the
    capacity and the shape as they were, and sets the cursor to
    [(i + 1) mod c]. *)
Theorem push_writes_slot_at_cursor rb element zs :
  wf rb -> RingBuffer._ix rb < RingBuffer._capacity rb ->
  as_slot (payload rb) element = Some zs ->
  exists rb',
    RingBuffer.push rb element = (rb', inr tt)
    /\ slot rb' (RingBuffer._ix rb) = zs
    /\ (forall j, j <> RingBuffer._ix rb -> slot rb' j = slot rb j)
    /\ RingBuffer.__len__ rb' = RingBuffer.__len__ rb
    /\ Np.shape (RingBuffer._buffer rb') = Np.shape (RingBuffer._buffer rb)
    /\ RingBuffer._ix rb'
       = (RingBuffer._ix rb + 1) mod RingBuffer._capacity rb
    /\ wf rb'.
Proof.
  intros Hwf Hix Hel.
  destruct (push_slots rb element zs Hwf Hix Hel)
    as (rb' & Hp & Hwf' & Hsh & Hc & Hi & Hs & Ho).
  exists rb'. unfold RingBuffer.__len__. repeat split; trivial.
  all: now destruct Hwf'.
Qed.

Lemma push_writes_slot_at_cursor_witness :
  exists rb',
    RingBuffer.push rb_3x2 (PyList [PyInt 7; PyInt 8]) = (rb', inr tt)
    /\ slot rb' 2 = [7; 8]%Z
    /\ (forall j, j <> 2 -> slot rb' j = slot rb_3x2 j)
    /\ RingBuffer.__len__ rb' = 3
    /\ Np.shape (RingBuffer._buffer rb') = [3; 2]
    /\ RingBuffer._ix rb' = 0
    /\ wf rb'.
Proof.
  apply (push_writes_slot_at_cursor rb_3x2 (PyList [PyInt 7; PyInt 8])
           [7; 8]%Z).
  - exact wf_rb_3x2.
  - cbn. lia.
  - reflexivity.
Defined.





(** C4. The doctest of the class.  A buffer of 5 integers, filled with 0:
    after the pushes of 0, 1, 2, 3, 4, [sum()] is 10 and [mean()] is 2.0;
    one more push, of 5, takes the place of the 0 ([doctest_rb6]), and
    [sum()] is 15, [mean()] 3.0.  A buffer of shape (5, 2), filled with 0: after the pushes of
    [[10n, 10n + 1]] for n = 0..4, [sum()] is 205 and [sum(axis=0)] is
    [[100, 105]]. *)
Theorem doctest_sums_and_means :
  RingBuffer.__init__ (Np.ShapeInt 5) (PyInt 0) Np.i8 = inr doctest_rb
  /\ RingBuffer.push_each doctest_rb (map PyInt [0; 1; 2; 3; 4]%Z)
     = (doctest_rb5, inr tt)
  /\ RingBuffer.sum doctest_rb5 None = inr (Np.Scalar (Np.int64 10))
  /\ RingBuffer.mean doctest_rb5 None = inr (Np.Scalar (Np.float64 2))
  /\ RingBuffer.push doctest_rb5 (PyInt 5) = (doctest_rb6, inr tt)
  /\ RingBuffer.sum doctest_rb6 None = inr (Np.Scalar (Np.int64 15))
  /\ RingBuffer.mean doctest_rb6 None = inr (Np.Scalar (Np.float64 3))
  /\ RingBuffer.__init__ (Np.ShapeTuple [5; 2]%Z) (PyInt 0) Np.i8
     = inr doctest_rb2d
  /\ RingBuffer.push_each doctest_rb2d
       (map (fun n => PyList [PyInt (10 * n); PyInt (10 * n + 1)])
            [0; 1; 2; 3; 4]%Z)
     = (doctest_rb2d5, inr tt)
  /\ RingBuffer.sum doctest_rb2d5 None = inr (Np.Scalar (Np.int64 205))
  /\ RingBuffer.sum doctest_rb2d5 (Some 0%Z)
     = inr (Np.Array [2] [Np.int64 100; Np.int64 105]).
Proof.
  repeat split; vm_compute; reflexivity.
Qed.

(** * Reductions along an axis *)

Lemma sequence_raises {B : Type} (rs : list (result B)) e :
  sequence rs = inl e -> In (inl e) rs.
Proof.
  induction rs as [| [e' | b] rs IH]; cbn; [discriminate | |].
  - intros [= ->]. now left.
  - destruct (sequence rs) as [e' | l]; cbn; [| discriminate].
    intros [= ->]. right. now apply IH.
Qed.

(** The only exception of a lane's reduction is the one of an empty lane
    under [maximum] or [minimum]. *)
Lemma reduce1_raises r xs e :
  Np.reduce1 r xs = inl e -> e = Raise ValueError (Np.zero_size_error r).
Proof.
  destruct r, xs; cbn [Np.reduce1]; try discriminate;
    now intros [= <-].
Qed.

Lemma reduce1_strided_raises r xs e :
  Np.reduce1_strided r xs = inl e ->
  e = Raise ValueError (Np.zero_size_error r).
Proof.
  destruct r; cbn [Np.reduce1_strided]; try discriminate;
    apply reduce1_raises.
Qed.

Lemma reduce_raises r a axis e :
  Np.reduce r a axis = inl e ->
  cls e = AxisError \/ e = Raise ValueError (Np.zero_size_error r).
Proof.
  unfold Np.reduce. destruct axis as [k |].
  - unfold Np.normalize_axis. destruct (_ && _)%bool; cbn [bind raise].
    + destruct (_ && Np.no_identity r)%bool.
      * intros [= <-]. now right.
      * destruct (sequence _) as [e' | items] eqn:Hs; cbn [bind].
        -- intros [= <-]. right.
           apply sequence_raises, in_flat_map in Hs.
           destruct Hs as (o & _ & Hi).
           apply in_map_iff in Hi. destruct Hi as (i & Hi & _).
           destruct (_ =? 1) in Hi;
             [now apply reduce1_raises in Hi
             | now apply reduce1_strided_raises in Hi].
        -- destruct (_ ++ _); discriminate.
    + intros [= <-]. now left.
  - destruct (Np.reduce1 r (Np.data a)) as [e' | s] eqn:H1; cbn [bind];
      [| discriminate].
    intros [= <-]. right. now apply reduce1_raises in H1.
Qed.

Lemma zero_size_not_non_primary r :
  Np.zero_size_error r <> RingBuffer.non_primary_axis.
Proof. destruct r; discriminate. Qed.

Lemma normalize_axis_0 n : Np.normalize_axis (S n) 0%Z = inr 0.
Proof.
  unfold Np.normalize_axis.
  destruct (Z.leb_spec (- Z.of_nat (S n)) 0); [| lia].
  destruct (Z.ltb_spec 0 (Z.of_nat (S n))); [| lia].
  reflexivity.
Qed.

(** The reduction along axis 0 of an array of shape [c :: p]: one lane of
    [c] items for each of the positions of a slot. *)
Lemma reduce_axis_0 r a c p :
  Np.shape a = c :: p ->
  Np.reduce r a (Some 0%Z)
  = if (c =? 0) && Np.no_identity r
    then raise ValueError (Np.zero_size_error r)
    else
      bind (sequence
              (map (fun i =>
                      (if Np.size p =? 1 then Np.reduce1 r
                       else Np.reduce1_strided r)
                        (map (fun j => nth (j * Np.size p + i) (Np.data a) 0%Z)
                             (seq 0 c)))
                   (seq 0 (Np.size p))))
           (fun items =>
              match p with
              | [] => inr (Np.Scalar (hd Np.nan items))
              | _ :: _ => inr (Np.Array p items)
              end).
Proof.
  intros H. unfold Np.reduce. rewrite H. cbn [length].
  rewrite normalize_axis_0. cbn [bind firstn skipn nth app].
  change (Np.size []) with 1. cbn [seq flat_map Nat.mul Nat.add].
  rewrite app_nil_r. destruct (_ && _)%bool; [reflexivity |].
  now destruct p.
Qed.

(** Where the items of a lane lie only matters to the float64 sums. *)
Lemma reduce_lane_exact inner r :
  Np.float_result r = false ->
  (if inner =? 1 then Np.reduce1 r else Np.reduce1_strided r)
  = Np.reduce1 r.
Proof.
  intros H. destruct (inner =? 1); [reflexivity |].
  destruct r; try reflexivity; discriminate H.
Qed.

(** An item of a slot is an item of the array. *)
Lemma nth_slot rb i j :
  i < Np.size (payload rb) ->
  nth i (slot rb j) 0%Z
  = nth (j * Np.size (payload rb) + i) (Np.data (RingBuffer._buffer rb)) 0%Z.
Proof.
  intros Hi. unfold slot. rewrite nth_firstn, nth_skipn.
  now destruct (Nat.ltb_spec i (Np.size (payload rb))); [| lia].
Qed.

(** C2. Every reduction called with an axis other than [None] or [0]
    raises [ValueError('cannot perform reduction along non-primary
    axis')], whatever the buffer; called with [None] or [0] it does not
    raise that exception.  On a buffer of shape (5, 2), [sum(axis=1)]
    raises it, [sum(axis=0)] is the array of the two column sums and
    [sum()] the scalar sum of the 10 items; the sums are int64 sums, which
    are the exact sums when these fit in an int64. *)
Theorem reduction_axis_check r rb axis :
  (axis <> None -> axis <> Some 0%Z ->
   RingBuffer._numpy_reduction r rb axis
   = raise ValueError RingBuffer.non_primary_axis)
  /\ (axis = None \/ axis = Some 0%Z ->
      RingBuffer._numpy_reduction r rb axis
      <> raise ValueError RingBuffer.non_primary_axis)
  /\ (wf rb -> Np.shape (RingBuffer._buffer rb) = [5; 2] ->
      RingBuffer.sum rb (Some 1%Z)
      = raise ValueError RingBuffer.non_primary_axis
      /\ RingBuffer.sum rb (Some 0%Z)
         = inr (Np.Array [2] [Np.int64 (int64_sum (column rb 0));
                              Np.int64 (int64_sum (column rb 1))])
      /\ RingBuffer.sum rb None
         = inr (Np.Scalar
                  (Np.int64 (int64_sum (Np.data (RingBuffer._buffer rb))))))
  /\ (forall xs, Np.in_int64 (fold_left Z.add xs 0%Z) = true ->
                 int64_sum xs = fold_left Z.add xs 0%Z).
Proof.
  split; [| split; [| split]].
  - intros HN H0. unfold RingBuffer._numpy_reduction.
    destruct axis as [k |]; [| contradiction]. cbn.
    destruct (Z.eqb_spec k 0) as [-> | _]; [contradiction | reflexivity].
  - intros Hax E. unfold RingBuffer._numpy_reduction in E.
    assert (Hin : RingBuffer.axis_in_None_0 axis = true)
      by (destruct Hax as [-> | ->]; reflexivity).
    rewrite Hin in E. cbn [negb] in E.
    destruct (reduce_raises _ _ _ _ E) as [H | H]; [discriminate |].
    apply (f_equal msg) in H. cbn [msg] in H.
    exact (zero_size_not_non_primary r (eq_sym H)).
  - intros Hwf Hsh. split; [reflexivity |]. split.
    + unfold RingBuffer.sum, RingBuffer._numpy_reduction.
      cbn [RingBuffer.axis_in_None_0 Z.eqb negb].
      rewrite (reduce_axis_0 _ _ 5 [2] Hsh).
      assert (Hp : payload rb = [2]) by (unfold payload; now rewrite Hsh).
      assert (Hc : RingBuffer._capacity rb = 5).
      { destruct Hwf as [H _ _]. rewrite Hsh in H. now injection H. }
      unfold column. rewrite Hc.
      cbn [Nat.eqb andb Np.size fold_right Nat.mul Nat.add seq map sequence
           bind Np.reduce1 Np.reduce1_strided].
      rewrite !sum_int64_sum, !nth_slot by (rewrite Hp; cbn; lia).
      rewrite Hp. reflexivity.
    + unfold RingBuffer.sum, RingBuffer._numpy_reduction, Np.reduce.
      cbn [RingBuffer.axis_in_None_0 negb Np.reduce1 bind].
      now rewrite sum_int64_sum.
  - intros xs H. unfold int64_sum. now apply wrap64_small.
Qed.

Lemma wf_doctest_rb2d5 : wf doctest_rb2d5.
Proof. constructor; cbn; try reflexivity. left. lia. Defined.

Lemma reduction_axis_check_witness :
  RingBuffer.mean doctest_rb2d5 (Some 1%Z)
  = raise ValueError RingBuffer.non_primary_axis
  /\ RingBuffer.mean doctest_rb2d5 None
     <> raise ValueError RingBuffer.non_primary_axis
  /\ (RingBuffer.sum doctest_rb2d5 (Some 1%Z)
      = raise ValueError RingBuffer.non_primary_axis
      /\ RingBuffer.sum doctest_rb2d5 (Some 0%Z)
         = inr (Np.Array [2] [Np.int64 100; Np.int64 105])
      /\ RingBuffer.sum doctest_rb2d5 None
         = inr (Np.Scalar (Np.int64 205)))
  /\ int64_sum [100; 105]%Z = 205%Z.
Proof.
  destruct (reduction_axis_check Np.Mean doctest_rb2d5 (Some 1%Z))
    as (Hraise & _).
  destruct (reduction_axis_check Np.Mean doctest_rb2d5 None)
    as (_ & Hpass & _).
  destruct (reduction_axis_check Np.Sum doctest_rb2d5 None)
    as (_ & _ & Hsum & Hexact).
  split; [| split; [| split]].
  - apply Hraise; discriminate.
  - apply Hpass. now left.
  - apply Hsum; [exact wf_doctest_rb2d5 | reflexivity].
  - apply Hexact. reflexivity.
Defined.

(** C9. On a one-dimensional buffer every reduction returns (or raises)
    with [axis=0] what it returns (or raises) with [axis=None]. *)
Theorem reduction_axis_0_is_whole_buffer_1d rb r :
  wf rb -> payload rb = [] ->
  RingBuffer._numpy_reduction r rb (Some 0%Z)
  = RingBuffer._numpy_reduction r rb None.
Proof.
  intros [Hsh Hd _] Hp. rewrite Hp in Hsh, Hd.
  unfold RingBuffer._numpy_reduction.
  cbn [RingBuffer.axis_in_None_0 Z.eqb negb].
  rewrite (reduce_axis_0 _ _ _ _ Hsh). unfold Np.reduce.
  change (Np.size []) with 1 in *. cbn [seq map sequence Nat.eqb].
  rewrite Nat.mul_1_r in Hd.
  rewrite (map_ext _ (fun j => nth j (Np.data (RingBuffer._buffer rb)) 0%Z))
    by (intros j; f_equal; lia).
  rewrite <- Hd, map_nth_seq.
  destruct (Nat.eqb_spec (length (Np.data (RingBuffer._buffer rb))) 0)
    as [E | _]; cbn [andb].
  - apply length_zero_iff_nil in E. rewrite E.
    destruct r; reflexivity.
  - destruct (Np.reduce1 r _); reflexivity.
Qed.

Lemma reduction_axis_0_is_whole_buffer_1d_witness :
  RingBuffer._numpy_reduction Np.Max rb_456 (Some 0%Z)
  = RingBuffer._numpy_reduction Np.Max rb_456 None.
Proof.
  apply (reduction_axis_0_is_whole_buffer_1d rb_456 Np.Max).
  - exact wf_rb_456.
  - reflexivity.
Defined.

(** * Construction and the calls that keep the capacity *)

Lemma do_call_capacity rb c :
  RingBuffer._capacity (fst (RingBuffer.do_call rb c))
  = RingBuffer._capacity rb.
Proof.
  destruct c as [element | value]; cbn [RingBuffer.do_call].
  - unfold RingBuffer.push.
    destruct (Np.setitem_int _ _ _) as [b [e | u]]; [reflexivity |].
    now destruct (RingBuffer._capacity rb).
  - unfold RingBuffer.fill. now destruct (Np.setitem_all _ _).
Qed.

Lemma do_calls_capacity cs : forall rb,
  RingBuffer._capacity (RingBuffer.do_calls rb cs) = RingBuffer._capacity rb.
Proof.
  unfold RingBuffer.do_calls.
  induction cs as [| c cs IH]; intros rb; cbn [fold_left]; [reflexivity |].
  now rewrite IH, do_call_capacity.
Qed.

(** C6. When [RingBuffer(shape, fill_value, dtype)] returns a buffer, its
    [len()] is the first dimension of [shape], and it is the same after
    any sequence of calls of [push] and [fill], whether they return or
    raise. *)
Theorem len_is_first_dimension shape fill_value dtype rb :
  RingBuffer.__init__ shape fill_value dtype = inr rb ->
  (exists d rest, Np.dims_of shape = d :: rest
                  /\ Z.of_nat (RingBuffer.__len__ rb) = d)
  /\ forall calls,
       RingBuffer.__len__ (RingBuffer.do_calls rb calls)
       = RingBuffer.__len__ rb.
Proof.
  intros H. split.
  - unfold RingBuffer.__init__ in H.
    destruct (Np.full shape fill_value dtype) as [e | a] eqn:Hf;
      cbn [bind] in H; [discriminate |].
    destruct (full_shape _ _ _ _ Hf) as (Hsh & _ & Hpos).
    destruct (Np.shape a) as [| c p]; [discriminate |].
    injection H as <-. cbn [RingBuffer.__len__ RingBuffer._capacity].
    destruct (Np.dims_of shape) as [| d rest]; [discriminate |].
    injection Hsh as -> _. exists d, rest. split; [reflexivity |].
    apply Z2Nat.id. now inversion Hpos.
  - intros calls. apply do_calls_capacity.
Qed.

Lemma len_is_first_dimension_witness :
  (exists d rest, [5; 2]%Z = d :: rest
                  /\ Z.of_nat (RingBuffer.__len__ doctest_rb2d) = d)
  /\ forall calls,
       RingBuffer.__len__ (RingBuffer.do_calls doctest_rb2d calls)
       = RingBuffer.__len__ doctest_rb2d.
Proof.
  apply (len_is_first_dimension (Np.ShapeTuple [5; 2]%Z) (PyInt 0) Np.i8
           doctest_rb2d).
  reflexivity.
Defined.

(** C7. [fill] with an integer that is representable in the dtype
    returns, makes every item of the array, hence every item of every
    slot, that integer, and leaves the cursor, the capacity and the shape
    as they were. *)
Theorem fill_sets_every_item rb z :
  wf rb -> Np.in_int64 z = true ->
  exists rb',
    RingBuffer.fill rb (PyInt z) = (rb', inr tt)
    /\ Np.data (RingBuffer._buffer rb')
       = repeat z (length (Np.data (RingBuffer._buffer rb)))
    /\ (forall j, j < RingBuffer._capacity rb ->
                  slot rb' j = repeat z (Np.size (payload rb)))
    /\ RingBuffer._ix rb' = RingBuffer._ix rb
    /\ RingBuffer.__len__ rb' = RingBuffer.__len__ rb
    /\ Np.shape (RingBuffer._buffer rb') = Np.shape (RingBuffer._buffer rb).
Proof.
  intros [Hsh Hd _] Hz.
  assert (Hf : RingBuffer.fill rb (PyInt z)
               = ({| RingBuffer._buffer :=
                       {| Np.shape := Np.shape (RingBuffer._buffer rb);
                          Np.data :=
                            repeat z (Np.size
                                        (Np.shape (RingBuffer._buffer rb))) |};
                     RingBuffer._capacity := RingBuffer._capacity rb;
                     RingBuffer._ix := RingBuffer._ix rb |}, inr tt)).
  { unfold RingBuffer.fill, Np.setitem_all, Np.assign, Np.pack_new.
    rewrite Hsh.
    cbn [length Np.discover Np.shape_eqb Np.leaves map sequence Np.to_int64].
    rewrite Hz. cbn [bind]. now rewrite broadcast_scalar. }
  eexists. split; [exact Hf |].
  assert (Hn : Np.size (Np.shape (RingBuffer._buffer rb))
               = length (Np.data (RingBuffer._buffer rb))).
  { rewrite Hsh, Hd. reflexivity. }
  unfold slot, payload. cbn. rewrite Hn. repeat split.
  intros j Hj. fold (payload rb). rewrite Hd.
  set (n := Np.size (payload rb)). apply nth_error_ext. intros k.
  rewrite nth_error_segment.
  destruct (Nat.ltb_spec k n) as [Hk | Hk].
  - rewrite !nth_error_repeat; trivial. nia.
  - symmetry. apply nth_error_None. now rewrite repeat_length.
Qed.

Lemma fill_sets_every_item_witness :
  exists rb',
    RingBuffer.fill rb_3x2 (PyInt 9) = (rb', inr tt)
    /\ Np.data (RingBuffer._buffer rb') = repeat 9%Z 6
    /\ (forall j, j < 3 -> slot rb' j = [9; 9]%Z)
    /\ RingBuffer._ix rb' = 2
    /\ RingBuffer.__len__ rb' = 3
    /\ Np.shape (RingBuffer._buffer rb') = [3; 2].
Proof.
  apply (fill_sets_every_item rb_3x2 9%Z).
  - exact wf_rb_3x2.
  - reflexivity.
Defined.

(** A shape with a negative dimension does not pass the checks of
    [np.empty]. *)
Lemma check_dims_negative dims : forall n,
  Exists (fun d => (d < 0)%Z) dims ->
  exists m, Np.check_dims n dims = raise ValueError m.
Proof.
  induction dims as [| d dims IH]; intros n H; [inversion H |].
  cbn [Np.check_dims].
  destruct (Z.eqb_spec d 0) as [-> | Hd].
  - apply IH. inversion H as [? ? Hneg | ? ? Hneg]; [lia | exact Hneg].
  - destruct (Z.ltb_spec d 0); [eexists; reflexivity |].
    destruct (_ <? _)%Z; [eexists; reflexivity |].
    apply IH. inversion H as [? ? Hneg | ? ? Hneg]; [lia | exact Hneg].
Qed.

(** C8, as amended.  A shape with a negative dimension is rejected:
    [RingBuffer(shape, fill_value, dtype)] raises [ValueError], whatever
    the fill value, and no buffer is built.  (A dimension of 0 is not
    a reason to reject: [init_accepts_zero_dimension].) *)
Theorem init_rejects_negative_dimension shape fill_value dtype :
  Exists (fun d => (d < 0)%Z) (Np.dims_of shape) ->
  (exists m,
     RingBuffer.__init__ shape fill_value dtype = raise ValueError m)
  /\ forall rb, RingBuffer.__init__ shape fill_value dtype <> inr rb.
Proof.
  intros H.
  assert (Hm : exists m,
             RingBuffer.__init__ shape fill_value dtype
             = raise ValueError m).
  { unfold RingBuffer.__init__, Np.full, Np.empty. cbv zeta.
    destruct (_ <? _); [eexists; reflexivity |].
    destruct (negb _); [eexists; reflexivity |].
    destruct (check_dims_negative _ 8%Z H) as [m ->].
    eexists; reflexivity. }
  split; [exact Hm |]. destruct Hm as [m ->]. discriminate.
Qed.

Lemma init_rejects_negative_dimension_witness :
  (exists m,
     RingBuffer.__init__ (Np.ShapeTuple [5; -2]%Z) (PyInt 0) Np.i8
     = raise ValueError m)
  /\ forall rb,
       RingBuffer.__init__ (Np.ShapeTuple [5; -2]%Z) (PyInt 0) Np.i8
       <> inr rb.
Proof.
  apply (init_rejects_negative_dimension
           (Np.ShapeTuple [5; -2]%Z) (PyInt 0) Np.i8).
  right. left. reflexivity.
Defined.

(** C8 as stated fails: the shape 0 has a non-positive dimension and the
    construction returns a buffer, of capacity 0. *)
Lemma init_accepts_zero_dimension :
  Exists (fun d => (d <= 0)%Z) (Np.dims_of (Np.ShapeInt 0))
  /\ RingBuffer.__init__ (Np.ShapeInt 0) (PyInt 0) Np.i8
     = inr {| RingBuffer._buffer := {| Np.shape := [0]; Np.data := [] |};
              RingBuffer._capacity := 0;
              RingBuffer._ix := 0 |}.
Proof.
  split; [| reflexivity]. left. cbn. lia.
Qed.

(** * Calls that raise *)

(** Items stored one after the other: when one does not convert, the
    ones before it are in the destination, and the rest of the
    destination is as it was. *)
Lemma pack_into_raises items : forall dst d e,
  Np.pack_into dst items = (d, Some e) ->
  d = converted_prefix items ++ skipn (length (converted_prefix items)) dst
  /\ length (converted_prefix items) < length items.
Proof.
  induction items as [| o items IH]; intros [| old dst] d e;
    cbn [Np.pack_into converted_prefix]; try discriminate.
  destruct (Np.to_int64 o) as [e' | z].
  - intros [= <- <-]. cbn. split; [reflexivity | lia].
  - destruct (Np.pack_into dst items) as [d' r] eqn:Hp. intros [= <- ->].
    destruct (IH _ _ _ Hp) as [-> Hlt]. cbn. split; [reflexivity | lia].
Qed.

(** An assignment of an object of exactly the destination's shape that
    raises. *)
Lemma assign_raises_exact sh dst v d e :
  Np.discover (length sh) v = Some sh ->
  Np.assign sh dst v = (d, inl e) ->
  d = converted_prefix (Np.leaves (length sh) v)
      ++ skipn (length (converted_prefix (Np.leaves (length sh) v))) dst
  /\ length (converted_prefix (Np.leaves (length sh) v)) < Np.size sh.
Proof.
  intros Hs. unfold Np.assign. rewrite Hs, shape_eqb_refl.
  destruct (Np.pack_into dst _) as [d' [e' |]] eqn:Hp; [| discriminate].
  intros [= <- <-]. rewrite <- (discover_leaves_length _ _ _ Hs).
  now apply pack_into_raises in Hp.
Qed.

(** A [push] that raises has not moved the cursor and has touched no
    slot but the one under the cursor; it has not touched that one either
    when the buffer is one-dimensional, the element does not have the
    shape of a slot or the capacity is 0; else the slot holds the items
    of the element that come before the one that did not convert, and
    after them its own. *)
Lemma push_raises rb element rb' e :
  wf rb -> RingBuffer.push rb element = (rb', inl e) ->
  RingBuffer._ix rb' = RingBuffer._ix rb
  /\ RingBuffer._capacity rb' = RingBuffer._capacity rb
  /\ Np.shape (RingBuffer._buffer rb') = Np.shape (RingBuffer._buffer rb)
  /\ (forall j, j <> RingBuffer._ix rb -> slot rb' j = slot rb j)
  /\ (payload rb = []
      \/ Np.discover (length (payload rb)) element <> Some (payload rb)
      \/ RingBuffer._capacity rb = 0 ->
      rb' = rb)
  /\ (Np.discover (length (payload rb)) element = Some (payload rb) ->
      RingBuffer._ix rb < RingBuffer._capacity rb ->
      let zs :=
        converted_prefix (Np.leaves (length (payload rb)) element) in
      slot rb' (RingBuffer._ix rb)
      = zs ++ skipn (length zs) (slot rb (RingBuffer._ix rb))
      /\ length zs < Np.size (payload rb)).
Proof.
  intros [Hsh Hd Hi] Hp.
  destruct rb as [[sh d] c i]. unfold slot in *. unfold payload in *.
  cbn [RingBuffer._buffer RingBuffer._capacity RingBuffer._ix
       Np.shape Np.data] in *.
  destruct sh as [| c0 p]; [discriminate |].
  injection Hsh as ->. cbn [tl] in *.
  unfold RingBuffer.push, Np.setitem_int in Hp.
  cbn [RingBuffer._buffer RingBuffer._capacity RingBuffer._ix
       Np.shape Np.data] in Hp.
  destruct (Nat.leb_spec c i) as [Hle | Hlt].
  - injection Hp as <- <-. cbn. repeat split; trivial; lia.
  - set (n := Np.size p) in *.
    assert (Hseg : length (firstn n (skipn (i * n) d)) = n).
    { rewrite length_firstn, length_skipn.
      assert (i * n + n <= c * n) by nia. lia. }
    destruct (Np.assign p (firstn n (skipn (i * n) d)) element)
      as [s r] eqn:Ha.
    destruct r as [e' | u].
    + injection Hp as <- <-.
      cbn [RingBuffer._buffer RingBuffer._capacity RingBuffer._ix
           Np.shape Np.data tl].
      destruct (assign_raises _ _ _ _ _ Ha) as [Hlen Hsame].
      split; [reflexivity |]. split; [reflexivity |].
      split; [reflexivity |]. split; [| split].
      * intros j Hj.
        apply (segment_splice_other c); trivial.
        fold (Np.size p). fold n. congruence.
      * intros Hcase.
        assert (Hs : s = firstn n (skipn (i * n) d)).
        { destruct Hcase as [-> | [Hne | Hc0]];
            [| now apply Hsame | lia].
          destruct element as [z | | xs].
          - eapply assign_scalar_raises; [| exact Ha]. discriminate.
          - eapply assign_scalar_raises; [| exact Ha]. discriminate.
          - apply Hsame. discriminate. }
        rewrite Hs, splice_same. reflexivity.
      * intros Hex _. cbv zeta.
        destruct (assign_raises_exact _ _ _ _ _ Hex Ha) as [Hs Hless].
        split; [| exact Hless].
        fold (Np.size p). fold n.
        rewrite (segment_splice_same c) by (trivial; congruence).
        exact Hs.
    + destruct c as [| c']; [lia | discriminate].
Qed.

(** A [fill] that raises has not moved the cursor; it has not touched
    the array unless the value has exactly the shape of the array, in
    which case the array holds the items of the value that come before
    the one that did not convert, and after them its own. *)
Lemma fill_raises rb value rb' e :
  RingBuffer.fill rb value = (rb', inl e) ->
  RingBuffer._ix rb' = RingBuffer._ix rb
  /\ RingBuffer._capacity rb' = RingBuffer._capacity rb
  /\ Np.shape (RingBuffer._buffer rb') = Np.shape (RingBuffer._buffer rb)
  /\ ((forall xs, value <> PyList xs) -> rb' = rb)
  /\ (Np.discover (length (Np.shape (RingBuffer._buffer rb))) value
      <> Some (Np.shape (RingBuffer._buffer rb)) ->
      rb' = rb)
  /\ (Np.discover (length (Np.shape (RingBuffer._buffer rb))) value
      = Some (Np.shape (RingBuffer._buffer rb)) ->
      let zs :=
        converted_prefix
          (Np.leaves (length (Np.shape (RingBuffer._buffer rb))) value) in
      Np.data (RingBuffer._buffer rb')
      = zs ++ skipn (length zs) (Np.data (RingBuffer._buffer rb))
      /\ length zs < Np.size (Np.shape (RingBuffer._buffer rb))).
Proof.
  unfold RingBuffer.fill, Np.setitem_all.
  destruct (Np.assign _ _ value) as [d r] eqn:Ha.
  intros [= <- ->].
  cbn [RingBuffer._buffer RingBuffer._capacity RingBuffer._ix
       Np.shape Np.data].
  do 3 (split; [reflexivity |]). split; [| split].
  - intros Hv. rewrite (assign_scalar_raises _ _ _ _ _ Hv Ha).
    now destruct rb as [[sh d0] c i].
  - intros Hne. destruct (assign_raises _ _ _ _ _ Ha) as [_ Hsame].
    rewrite (Hsame Hne). now destruct rb as [[sh d0] c i].
  - intros Hex. exact (assign_raises_exact _ _ _ _ _ Hex Ha).
Qed.

(** C5, as amended.  A [push] that raises leaves the cursor, the
    capacity, the shape and every slot but the one under the cursor as
    they were.  It leaves the whole buffer as it was when the buffer is
    one-dimensional, when the element does not have exactly the shape of
    a slot and when the capacity is 0; when the element has exactly the
    shape of a slot (and the capacity is not 0), the slot under the
    cursor holds the values of the items of the element that come before
    the first one that is not representable, followed by its own old
    items, of which there is at least one.  A [fill] that raises leaves
    the cursor, the capacity and the shape as they were; it leaves the
    whole buffer as it was when the value is a scalar or, more
    generally, does not have exactly the shape of the array; when it
    has, the array holds the values of its items that come before the
    first one that is not representable, followed by the array's own old
    items.  A call of a reduction, whether it raises or returns, leaves
    the buffer and the cursor as they were. *)
Theorem raising_calls_keep_cursor rb :
  wf rb ->
  (forall element rb' e,
     RingBuffer.push rb element = (rb', inl e) ->
     RingBuffer._ix rb' = RingBuffer._ix rb
     /\ RingBuffer.__len__ rb' = RingBuffer.__len__ rb
     /\ Np.shape (RingBuffer._buffer rb') = Np.shape (RingBuffer._buffer rb)
     /\ (forall j, j <> RingBuffer._ix rb -> slot rb' j = slot rb j)
     /\ (payload rb = []
         \/ Np.discover (length (payload rb)) element <> Some (payload rb)
         \/ RingBuffer._capacity rb = 0 ->
         rb' = rb)
     /\ (Np.discover (length (payload rb)) element = Some (payload rb) ->
         RingBuffer._ix rb < RingBuffer._capacity rb ->
         let zs :=
           converted_prefix (Np.leaves (length (payload rb)) element) in
         slot rb' (RingBuffer._ix rb)
         = zs ++ skipn (length zs) (slot rb (RingBuffer._ix rb))
         /\ length zs < Np.size (payload rb)))
  /\ (forall value rb' e,
        RingBuffer.fill rb value = (rb', inl e) ->
        RingBuffer._ix rb' = RingBuffer._ix rb
        /\ RingBuffer.__len__ rb' = RingBuffer.__len__ rb
        /\ Np.shape (RingBuffer._buffer rb')
           = Np.shape (RingBuffer._buffer rb)
        /\ ((forall xs, value <> PyList xs) -> rb' = rb)
        /\ (Np.discover (length (Np.shape (RingBuffer._buffer rb))) value
            <> Some (Np.shape (RingBuffer._buffer rb)) ->
            rb' = rb)
        /\ (Np.discover (length (Np.shape (RingBuffer._buffer rb))) value
            = Some (Np.shape (RingBuffer._buffer rb)) ->
            let zs :=
              converted_prefix
                (Np.leaves (length (Np.shape (RingBuffer._buffer rb)))
                           value) in
            Np.data (RingBuffer._buffer rb')
            = zs ++ skipn (length zs) (Np.data (RingBuffer._buffer rb))
            /\ length zs < Np.size (Np.shape (RingBuffer._buffer rb))))
  /\ (forall name axis,
        fst (RingBuffer.call_reduction name rb axis) = rb).
Proof.
  intros Hwf. split; [| split].
  - intros element rb' e. now apply push_raises.
  - intros value rb' e. apply fill_raises.
  - reflexivity.
Qed.

Lemma raising_calls_keep_cursor_witness :
  fst (RingBuffer.push rb_456 (PyInt (2 ^ 64))) = rb_456
  /\ fst (RingBuffer.push rb_3x2 (PyList [PyInt 1; PyInt 2; PyInt 3]))
     = rb_3x2
  /\ slot (fst (RingBuffer.push rb_3x2 (PyList [PyInt 7; PyNone]))) 2
     = [7; 6]%Z
  /\ fst (RingBuffer.fill rb_3x2 PyNone) = rb_3x2
  /\ fst (RingBuffer.call_reduction Np.Max rb_3x2 (Some 1%Z)) = rb_3x2.
Proof.
  destruct (raising_calls_keep_cursor rb_456 wf_rb_456) as (Hpush1 & _).
  destruct (raising_calls_keep_cursor rb_3x2 wf_rb_3x2)
    as (Hpush2 & Hfill & Hred).
  split; [| split; [| split; [| split]]].
  - apply (Hpush1 (PyInt (2 ^ 64)) _
             (Raise OverflowError "Python int too large to convert to C long")
             eq_refl).
    now left.
  - apply (Hpush2 (PyList [PyInt 1; PyInt 2; PyInt 3]) _
             (Raise ValueError Np.broadcast_error) eq_refl).
    right. left. discriminate.
  - destruct (Hpush2 (PyList [PyInt 7; PyNone]) _
                (Raise TypeError "int() argument must be a string or a number")
                eq_refl) as (_ & _ & _ & _ & _ & Hwritten).
    destruct (Hwritten eq_refl) as [Hslot _]; [cbn; lia |].
    exact Hslot.
  - apply (Hfill PyNone _
             (Raise TypeError "int() argument must be a string or a number")
             eq_refl).
    discriminate.
  - apply Hred.
Defined.

(** C5 as stated fails: the second item of the element is not
    representable, the push raises [OverflowError], and the first item is
    already in the slot. *)
Lemma push_raises_after_partial_write :
  RingBuffer.push doctest_rb2d (PyList [PyInt 1; PyInt (2 ^ 64)])
  = ({| RingBuffer._buffer :=
          {| Np.shape := [5; 2]; Np.data := 1%Z :: repeat 0%Z 9 |};
        RingBuffer._capacity := 5;
        RingBuffer._ix := 0 |},
     raise OverflowError "Python int too large to convert to C long")
  /\ Np.data (RingBuffer._buffer
                (fst (RingBuffer.push doctest_rb2d
                        (PyList [PyInt 1; PyInt (2 ^ 64)]))))
     <> Np.data (RingBuffer._buffer doctest_rb2d).
Proof.
  split; [reflexivity | discriminate].
Qed.

(** * ExplodingObject *)

Lemma append_assoc (a b c : string) :
  ((a ++ b) ++ c = a ++ b ++ c)%string.
Proof. induction a as [| x a IH]; cbn; [reflexivity | now rewrite IH]. Qed.

Lemma append_nil_r (a : string) : (a ++ EmptyString = a)%string.
Proof. induction a as [| x a IH]; cbn; [reflexivity | now rewrite IH]. Qed.

Lemma prefixb_append s b : ExplodingObject.prefixb s (s ++ b) = true.
Proof.
  induction s as [| c s IH]; cbn; [reflexivity |].
  now rewrite Ascii.eqb_refl, IH.
Qed.

(** The boolean test finds every occurrence. *)
Lemma includes_includesb s t :
  ExplodingObject.includes s t -> ExplodingObject.includesb s t = true.
Proof.
  intros (a & b & ->). induction a as [| c a IH].
  - cbn [append]. destruct (s ++ b)%string eqn:E;
      cbn [ExplodingObject.includesb]; rewrite <- E, prefixb_append;
      reflexivity.
  - cbn [append ExplodingObject.includesb]. rewrite IH. apply orb_true_r.
Qed.

Lemma includes_trans s t u :
  ExplodingObject.includes s t -> ExplodingObject.includes t u ->
  ExplodingObject.includes s u.
Proof.
  intros (a & b & ->) (a' & b' & ->). exists (a' ++ a)%string, (b ++ b')%string.
  now rewrite !append_assoc.
Qed.

Lemma repr_char_plain c :
  ExplodingObject.plain_char c = true ->
  ExplodingObject.repr_char ExplodingObject.squote c = String c EmptyString.
Proof.
  destruct c as [[] [] [] [] [] [] [] []]; vm_compute;
    intros H; try discriminate H; reflexivity.
Qed.

Lemma plain_no_squote s :
  ExplodingObject.plain s = true ->
  ExplodingObject.contains_char ExplodingObject.squote s = false.
Proof.
  induction s as [| c s IH];
    cbn [ExplodingObject.plain ExplodingObject.contains_char];
    [reflexivity |].
  rewrite andb_true_iff. intros [Hc Hs]. rewrite (IH Hs), orb_false_r.
  unfold ExplodingObject.plain_char in Hc.
  destruct (Ascii.eqb c ExplodingObject.squote); [| reflexivity].
  now rewrite andb_false_r in Hc.
Qed.

Lemma repr_body_plain s :
  ExplodingObject.plain s = true ->
  ExplodingObject.repr_body ExplodingObject.squote s = s.
Proof.
  induction s as [| c s IH];
    cbn [ExplodingObject.plain ExplodingObject.repr_body];
    [reflexivity |].
  rewrite andb_true_iff. intros [Hc Hs].
  now rewrite (repr_char_plain c Hc), (IH Hs).
Qed.

(** [repr] of a plain string is the string between single quotes. *)
Lemma repr_plain s :
  ExplodingObject.plain s = true ->
  ExplodingObject.repr s
  = String ExplodingObject.squote
           (s ++ String ExplodingObject.squote EmptyString).
Proof.
  intros H. unfold ExplodingObject.repr.
  rewrite (plain_no_squote s H). cbn [andb].
  now rewrite (repr_body_plain s H).
Qed.

Lemma lookup_missing inherited self attr :
  attr <> "_name"%string ->
  ~ In attr (ExplodingObject.class_body ++ inherited) ->
  ExplodingObject.lookup inherited self attr = None.
Proof.
  intros Hn Hc. unfold ExplodingObject.lookup.
  destruct (String.eqb_spec attr "_name"); [contradiction |].
  destruct (existsb _ _) eqn:He; [| reflexivity].
  apply existsb_exists in He. destruct He as (x & Hx & E).
  apply String.eqb_eq in E. now subst x.
Qed.

(** C10, as amended.  On an [ExplodingObject] built with a name, the
    access to any attribute that the ordinary lookup does not find (any
    name but [_name] and the names of the class) raises an
    [AttributeError] whose message is 'attempted to access attribute
    <repr of the attribute name> of ExplodingObject <repr of the name>';
    the message includes both [repr]s, and the names themselves when they
    are plain (every character printable, none a single quote or a
    backslash). *)
Theorem getattr_raises_for_missing_attribute inherited name attr :
  attr <> "_name"%string ->
  ~ In attr (ExplodingObject.class_body ++ inherited) ->
  exists m,
    ExplodingObject.getattr inherited (ExplodingObject.__init__ name) attr
    = raise AttributeError m
    /\ m = ("attempted to access attribute " ++ ExplodingObject.repr attr
            ++ " of ExplodingObject " ++ ExplodingObject.repr name)%string
    /\ ExplodingObject.includes (ExplodingObject.repr attr) m
    /\ ExplodingObject.includes (ExplodingObject.repr name) m
    /\ (ExplodingObject.plain attr = true -> ExplodingObject.includes attr m)
    /\ (ExplodingObject.plain name = true -> ExplodingObject.includes name m).
Proof.
  intros Hn Hc. eexists. split.
  - unfold ExplodingObject.getattr. rewrite lookup_missing by trivial.
    reflexivity.
  - cbn [ExplodingObject._name ExplodingObject.__init__].
    set (p := "attempted to access attribute "%string).
    set (q := " of ExplodingObject "%string).
    assert (Ha : ExplodingObject.includes (ExplodingObject.repr attr)
                   (p ++ ExplodingObject.repr attr ++ q
                      ++ ExplodingObject.repr name)%string).
    { now exists p, (q ++ ExplodingObject.repr name)%string. }
    assert (Hb : ExplodingObject.includes (ExplodingObject.repr name)
                   (p ++ ExplodingObject.repr attr ++ q
                      ++ ExplodingObject.repr name)%string).
    { exists (p ++ ExplodingObject.repr attr ++ q)%string, EmptyString.
      now rewrite append_nil_r, !append_assoc. }
    assert (Hplain : forall s, ExplodingObject.plain s = true ->
                     ExplodingObject.includes s (ExplodingObject.repr s)).
    { intros s Hs. rewrite (repr_plain s Hs).
      now exists (String ExplodingObject.squote EmptyString),
                 (String ExplodingObject.squote EmptyString). }
    split; [reflexivity |]. split; [exact Ha |]. split; [exact Hb |].
    split; intros Hs.
    + exact (includes_trans _ _ _ (Hplain _ Hs) Ha).
    + exact (includes_trans _ _ _ (Hplain _ Hs) Hb).
Qed.

Lemma getattr_raises_for_missing_attribute_witness :
  exists m,
    ExplodingObject.getattr object_dir (ExplodingObject.__init__ "algo") "foo"
    = raise AttributeError m
    /\ ExplodingObject.includes "foo" m
    /\ ExplodingObject.includes "algo" m.
Proof.
  destruct (getattr_raises_for_missing_attribute object_dir "algo" "foo")
    as (m & Hg & _ & _ & _ & Hattr & Hname).
  - discriminate.
  - intros H. repeat (destruct H as [H | H]; [discriminate |]). exact H.
  - exists m. split; [exact Hg |].
    split; [apply Hattr | apply Hname]; reflexivity.
Defined.

(** C10 as stated fails twice.  The attribute [_name] is found by the
    ordinary lookup, and the access returns the name.  And the message
    has the [repr] of the attribute name, not the name: the backslash of
    the name [a\b] is doubled, and the name is not in the message. *)
Lemma getattr_name_returns :
  ExplodingObject.getattr object_dir (ExplodingObject.__init__ "algo") "_name"
  = inr (ExplodingObject.InstanceAttr "algo")
  /\ "a\b"%string <> "_name"%string
  /\ ~ In "a\b"%string (ExplodingObject.class_body ++ object_dir)
  /\ ExplodingObject.getattr object_dir (ExplodingObject.__init__ "algo")
       "a\b"
     = raise AttributeError
         "attempted to access attribute 'a\\b' of ExplodingObject 'algo'"
  /\ ~ ExplodingObject.includes "a\b"
        "attempted to access attribute 'a\\b' of ExplodingObject 'algo'".
Proof.
  split; [reflexivity |]. split; [discriminate |]. split.
  { intros H. repeat (destruct H as [H | H]; [discriminate |]). exact H. }
  split; [reflexivity |].
  intros H. apply includes_includesb in H. vm_compute in H. discriminate H.
Qed.

(** * Further properties of the ring buffer *)

(** X1. A buffer that [RingBuffer(shape, fill_value, dtype)] returns has
    its cursor at 0, and after any sequence of calls of [push] and [fill],
    whether they return or raise, it satisfies the invariant: axis 0 of
    the array has the length [_capacity], the array has as many items as
    its shape says, and the cursor is an index of axis 0 (0 when the
    capacity is 0). *)
Theorem calls_keep_invariant shape fill_value dtype rb calls :
  RingBuffer.__init__ shape fill_value dtype = inr rb ->
  RingBuffer._ix rb = 0 /\ wf (RingBuffer.do_calls rb calls).
Proof.
  intros H. split.
  - unfold RingBuffer.__init__ in H.
    destruct (Np.full shape fill_value dtype) as [e | a]; cbn [bind] in H;
      [discriminate |].
    destruct (Np.shape a); [discriminate |]. now injection H as <-.
  - apply do_calls_wf. exact (init_wf _ _ _ _ H).
Qed.

Lemma calls_keep_invariant_witness :
  RingBuffer._ix doctest_rb2d = 0
  /\ wf (RingBuffer.do_calls doctest_rb2d
           [RingBuffer.Push (PyList [PyInt 1; PyInt (2 ^ 64)]);
            RingBuffer.Fill PyNone; RingBuffer.Push (PyInt 3)]).
Proof.
  apply (calls_keep_invariant (Np.ShapeTuple [5; 2]%Z) (PyInt 0) Np.i8).
  reflexivity.
Defined.

(** A push that returns has advanced the cursor by one, modulo the
    capacity, which it has not changed. *)
Lemma push_returns_cursor rb element rb' :
  RingBuffer.push rb element = (rb', inr tt) ->
  RingBuffer._capacity rb' = RingBuffer._capacity rb
  /\ RingBuffer._ix rb'
     = (RingBuffer._ix rb + 1) mod RingBuffer._capacity rb
  /\ 0 < RingBuffer._capacity rb.
Proof.
  unfold RingBuffer.push.
  destruct (Np.setitem_int _ _ _) as [b [e | u]]; [discriminate |].
  destruct (RingBuffer._capacity rb) as [| c]; [discriminate |].
  intros [= <-]. cbn. repeat split. lia.
Qed.

(** X2. When a sequence of pushes has returned, whatever the elements,
    the capacity is what it was and the cursor has advanced by the number
    of pushes, modulo the capacity; after a multiple of [capacity] pushes
    it is where it was. *)
Theorem cursor_after_pushes es : forall rb rb',
  RingBuffer._ix rb < RingBuffer._capacity rb ->
  RingBuffer.push_each rb es = (rb', inr tt) ->
  RingBuffer._capacity rb' = RingBuffer._capacity rb
  /\ RingBuffer._ix rb'
     = (RingBuffer._ix rb + length es) mod RingBuffer._capacity rb
  /\ (length es mod RingBuffer._capacity rb = 0 ->
      RingBuffer._ix rb' = RingBuffer._ix rb).
Proof.
  assert (Hmain : forall rb rb',
    RingBuffer._ix rb < RingBuffer._capacity rb ->
    RingBuffer.push_each rb es = (rb', inr tt) ->
    RingBuffer._capacity rb' = RingBuffer._capacity rb
    /\ RingBuffer._ix rb'
       = (RingBuffer._ix rb + length es) mod RingBuffer._capacity rb).
  { induction es as [| e es IH]; intros rb rb' Hix; cbn [RingBuffer.push_each].
    - intros [= <-]. split; [reflexivity |].
      cbn. now rewrite Nat.add_0_r, Nat.mod_small.
    - destruct (RingBuffer.push rb e) as [rb1 [e1 | []]] eqn:Hp;
        [discriminate |].
      destruct (push_returns_cursor _ _ _ Hp) as (Hc & Hi & Hpos).
      intros Hrest. destruct (IH rb1 rb') as [Hc' Hi']; trivial.
      { rewrite Hi, Hc. apply Nat.mod_upper_bound. lia. }
      split; [congruence |].
      rewrite Hi', Hi, Hc, Nat.Div0.add_mod_idemp_l. cbn [length].
      f_equal. lia. }
  intros rb rb' Hix Hp. destruct (Hmain rb rb' Hix Hp) as [Hc Hi].
  split; [exact Hc |]. split; [exact Hi |].
  intros Hk. rewrite Hi, Nat.Div0.add_mod, Hk, Nat.add_0_r.
  rewrite Nat.Div0.mod_mod. now apply Nat.mod_small.
Qed.

Lemma cursor_after_pushes_witness :
  RingBuffer._capacity
    (fst (RingBuffer.push_each rb_456 [PyInt 1; PyInt 2; PyInt 3])) = 3
  /\ RingBuffer._ix
       (fst (RingBuffer.push_each rb_456 [PyInt 1; PyInt 2; PyInt 3]))
     = 1.
Proof.
  destruct (cursor_after_pushes [PyInt 1; PyInt 2; PyInt 3] rb_456
              (fst (RingBuffer.push_each rb_456
                      [PyInt 1; PyInt 2; PyInt 3])))
    as (Hc & _ & Hback).
  - cbn. lia.
  - reflexivity.
  - split; [exact Hc |]. apply Hback. reflexivity.
Defined.

(** X3. After the pushes of elements that have the shape of a slot and
    representable items, the slots from the cursor on are the ones that
    were there followed by the values pushed, less as many of the oldest
    as there were pushes; after at least [capacity] pushes they are the
    values of the last [capacity] pushes, the oldest first. *)
Theorem pushes_shift_the_queue rb es ws :
  wf rb -> RingBuffer._ix rb < RingBuffer._capacity rb ->
  Forall2 (fun e w => as_slot (payload rb) e = Some w) es ws ->
  exists rb',
    RingBuffer.push_each rb es = (rb', inr tt)
    /\ logical rb' = skipn (length ws) (logical rb ++ ws)
    /\ (RingBuffer._capacity rb <= length ws ->
        logical rb' = skipn (length ws - RingBuffer._capacity rb) ws).
Proof.
  intros Hwf Hix HF.
  destruct (push_each_logical _ _ _ HF Hwf Hix)
    as (rb' & Hp & _ & _ & _ & Hl).
  exists rb'. split; [exact Hp |]. split; [exact Hl |].
  intros Hk. rewrite Hl, skipn_app, skipn_all2, length_logical
    by (now rewrite length_logical).
  reflexivity.
Qed.

Lemma pushes_shift_the_queue_witness :
  exists rb',
    RingBuffer.push_each rb_456 [PyInt 7; PyInt 8; PyInt 9; PyInt 10]
    = (rb', inr tt)
    /\ logical rb' = [[8]; [9]; [10]]%Z.
Proof.
  destruct (pushes_shift_the_queue rb_456
              [PyInt 7; PyInt 8; PyInt 9; PyInt 10]
              [[7]; [8]; [9]; [10]]%Z)
    as (rb' & Hp & _ & Hlast).
  - exact wf_rb_456.
  - cbn. lia.
  - repeat constructor.
  - exists rb'. split; [exact Hp |]. apply Hlast. cbn. lia.
Defined.

(** X4. Rolling reductions: after at least [capacity] pushes of
    well-shaped, representable elements, each of the whole-buffer
    reductions [sum], [prod], [min], [max], [all] and [any] is the
    reduction of the items of the last [capacity] elements pushed, in the
    order they were pushed in. *)
Theorem rolling_reduction rb es ws r :
  wf rb -> RingBuffer._ix rb < RingBuffer._capacity rb ->
  Forall2 (fun e w => as_slot (payload rb) e = Some w) es ws ->
  RingBuffer._capacity rb <= length ws ->
  Np.float_result r = false ->
  exists rb',
    RingBuffer.push_each rb es = (rb', inr tt)
    /\ RingBuffer._numpy_reduction r rb' None
       = bind (Np.reduce1 r
                 (concat (skipn (length ws - RingBuffer._capacity rb) ws)))
              (fun s => inr (Np.Scalar s)).
Proof.
  intros Hwf Hix HF Hk Hr.
  destruct (push_each_logical _ _ _ HF Hwf Hix)
    as (rb' & Hp & Hwf' & _ & _ & Hl).
  exists rb'. split; [exact Hp |].
  unfold RingBuffer._numpy_reduction, Np.reduce.
  cbn [RingBuffer.axis_in_None_0 negb].
  f_equal. apply reduce1_Permutation; [exact Hr |].
  rewrite <- (concat_slots rb') by trivial. apply Permutation_concat.
  rewrite <- (logical_slots rb'), Hl.
  rewrite skipn_app, skipn_all2, length_logical
    by (now rewrite length_logical).
  reflexivity.
Qed.

Lemma rolling_reduction_witness :
  exists rb',
    RingBuffer.push_each rb_456 [PyInt 7; PyInt 8; PyInt 9; PyInt 10]
    = (rb', inr tt)
    /\ RingBuffer._numpy_reduction Np.Sum rb' None
       = inr (Np.Scalar (Np.int64 27)).
Proof.
  apply (rolling_reduction rb_456
           [PyInt 7; PyInt 8; PyInt 9; PyInt 10]
           [[7]; [8]; [9]; [10]]%Z Np.Sum).
  - exact wf_rb_456.
  - cbn. lia.
  - repeat constructor.
  - cbn. lia.
  - reflexivity.
Defined.

(** X5. A buffer of capacity 0 (a shape with a leading 0) cannot be
    pushed to: [push] raises [IndexError] and leaves the buffer as it
    was, whatever the element.  Its array is empty: [sum()] is 0, [prod()]
    1, [all()] True, [any()] False, [mean()] and [std()] nan, and [min()]
    and [max()] raise [ValueError]. *)
Theorem empty_buffer rb element :
  wf rb -> RingBuffer._capacity rb = 0 ->
  RingBuffer.push rb element = (rb, raise IndexError "index out of bounds")
  /\ RingBuffer.sum rb None = inr (Np.Scalar (Np.int64 0))
  /\ RingBuffer.prod rb None = inr (Np.Scalar (Np.int64 1))
  /\ RingBuffer.all rb None = inr (Np.Scalar (Np.bool_ true))
  /\ RingBuffer.any rb None = inr (Np.Scalar (Np.bool_ false))
  /\ RingBuffer.mean rb None = inr (Np.Scalar Np.nan)
  /\ RingBuffer.std rb None = inr (Np.Scalar Np.nan)
  /\ RingBuffer.min rb None = raise ValueError (Np.zero_size_error Np.Min)
  /\ RingBuffer.max rb None = raise ValueError (Np.zero_size_error Np.Max).
Proof.
  intros [Hsh Hd _] Hc. destruct rb as [[sh d] c i]. unfold payload in *.
  cbn [RingBuffer._buffer RingBuffer._capacity RingBuffer._ix
       Np.shape Np.data] in *.
  subst c. destruct d; [| discriminate]. split.
  - unfold RingBuffer.push, Np.setitem_int.
    cbn [RingBuffer._buffer RingBuffer._capacity RingBuffer._ix Np.shape].
    rewrite Hsh. reflexivity.
  - repeat split; vm_compute; reflexivity.
Qed.

Lemma empty_buffer_witness :
  RingBuffer.push
    {| RingBuffer._buffer := {| Np.shape := [0; 2]; Np.data := [] |};
       RingBuffer._capacity := 0; RingBuffer._ix := 0 |} (PyInt 1)
  = ({| RingBuffer._buffer := {| Np.shape := [0; 2]; Np.data := [] |};
        RingBuffer._capacity := 0; RingBuffer._ix := 0 |},
     raise IndexError "index out of bounds").
Proof.
  apply (empty_buffer
           {| RingBuffer._buffer := {| Np.shape := [0; 2]; Np.data := [] |};
              RingBuffer._capacity := 0; RingBuffer._ix := 0 |} (PyInt 1)).
  - constructor; cbn; auto.
  - reflexivity.
Defined.

(** A representable integer assigned to a destination of any shape fills
    it. *)
Lemma assign_scalar sh dst z :
  length dst = Np.size sh -> Np.in_int64 z = true ->
  Np.assign sh dst (PyInt z) = (repeat z (Np.size sh), inr tt).
Proof.
  intros Hdst Hz. unfold Np.assign, Np.pack_new.
  replace (Np.discover (length sh) (PyInt z)) with (Some (@nil nat))
    by (now destruct sh).
  replace (Np.leaves (length sh) (PyInt z)) with [PyInt z]
    by (now destruct sh).
  destruct sh as [| c sh].
  - destruct dst as [| x [| y dst]]; try discriminate.
    cbn. now rewrite Hz.
  - cbn [Np.shape_eqb map sequence Np.to_int64]. rewrite Hz. cbn [bind].
    now rewrite broadcast_scalar.
Qed.

(** What [push] does when the assignment to the slot returns. *)
Lemma push_assign rb element zs :
  wf rb -> RingBuffer._ix rb < RingBuffer._capacity rb ->
  Np.assign (payload rb) (slot rb (RingBuffer._ix rb)) element
  = (zs, inr tt) ->
  exists rb',
    RingBuffer.push rb element = (rb', inr tt)
    /\ wf rb'
    /\ Np.shape (RingBuffer._buffer rb') = Np.shape (RingBuffer._buffer rb)
    /\ slot rb' (RingBuffer._ix rb) = zs
    /\ (forall j, j <> RingBuffer._ix rb -> slot rb' j = slot rb j).
Proof.
  intros [Hsh Hd Hi] Hix Ha.
  destruct rb as [[sh d] c i]. unfold slot in *. unfold payload in *.
  cbn [RingBuffer._buffer RingBuffer._capacity RingBuffer._ix
       Np.shape Np.data] in *.
  destruct sh as [| c0 p]; [discriminate |]. injection Hsh as ->.
  cbn [tl] in *. set (n := Np.size p) in *.
  assert (Hoff : i * n + n <= c * n) by nia.
  assert (Hseg : length (firstn n (skipn (i * n) d)) = n).
  { rewrite length_firstn, length_skipn. lia. }
  pose proof (assign_length p _ element Hseg) as Hz.
  rewrite Ha in Hz. cbn [fst] in Hz. fold n in Hz.
  eexists. split.
  - unfold RingBuffer.push, Np.setitem_int.
    cbn [RingBuffer._buffer RingBuffer._capacity RingBuffer._ix
         Np.shape Np.data].
    destruct (Nat.leb_spec c i) as [Hle | _]; [lia |].
    fold n. rewrite Ha. destruct c as [| c']; [lia | reflexivity].
  - cbn [RingBuffer._buffer RingBuffer._capacity RingBuffer._ix
         Np.shape Np.data tl]. fold n.
    split; [| split; [reflexivity | split]].
    + constructor; unfold payload;
        cbn [RingBuffer._buffer RingBuffer._capacity RingBuffer._ix
             Np.shape Np.data tl]; fold n.
      * reflexivity.
      * rewrite length_splice; trivial; lia.
      * left. apply Nat.mod_upper_bound. lia.
    + exact (segment_splice_same _ _ _ _ _ Hd Hix Hz).
    + intros j Hj. exact (segment_splice_other _ _ _ _ _ _ Hd Hix Hz Hj).
Qed.

(** X6. [push] of a representable integer on a buffer of any shape
    returns: numpy broadcasts the integer, and every item of the slot
    under the cursor becomes that integer; the other slots are as they
    were. *)
Theorem push_scalar_fills_slot rb z :
  wf rb -> RingBuffer._ix rb < RingBuffer._capacity rb ->
  Np.in_int64 z = true ->
  exists rb',
    RingBuffer.push rb (PyInt z) = (rb', inr tt)
    /\ slot rb' (RingBuffer._ix rb) = repeat z (Np.size (payload rb))
    /\ (forall j, j <> RingBuffer._ix rb -> slot rb' j = slot rb j).
Proof.
  intros Hwf Hix Hz.
  destruct (push_assign rb (PyInt z) (repeat z (Np.size (payload rb))))
    as (rb' & Hp & _ & _ & Hs & Ho); trivial.
  - apply assign_scalar; trivial. destruct Hwf as [_ Hd _].
    unfold slot. rewrite length_firstn, length_skipn, Hd.
    assert (RingBuffer._ix rb * Np.size (payload rb) + Np.size (payload rb)
            <= RingBuffer._capacity rb * Np.size (payload rb)) by nia.
    lia.
  - exists rb'. now repeat split.
Qed.

Lemma push_scalar_fills_slot_witness :
  exists rb',
    RingBuffer.push rb_3x2 (PyInt 7) = (rb', inr tt)
    /\ slot rb' 2 = [7; 7]%Z
    /\ (forall j, j <> 2 -> slot rb' j = slot rb_3x2 j).
Proof.
  apply (push_scalar_fills_slot rb_3x2 7%Z).
  - exact wf_rb_3x2.
  - cbn. lia.
  - reflexivity.
Defined.

(** [push] and [fill] never change the shape of the array. *)
Lemma do_call_shape rb c :
  Np.shape (RingBuffer._buffer (fst (RingBuffer.do_call rb c)))
  = Np.shape (RingBuffer._buffer rb).
Proof.
  destruct c as [element | value]; cbn [RingBuffer.do_call].
  - unfold RingBuffer.push, Np.setitem_int.
    destruct (Np.shape (RingBuffer._buffer rb)) as [| c p] eqn:Hsh.
    + cbn. exact Hsh.
    + destruct (c <=? RingBuffer._ix rb); [cbn; exact Hsh |].
      destruct (Np.assign _ _ _) as [s [e | u]]; [reflexivity |].
      destruct (RingBuffer._capacity rb); reflexivity.
  - unfold RingBuffer.fill, Np.setitem_all.
    now destruct (Np.assign _ _ _).
Qed.

Lemma do_calls_shape cs : forall rb,
  Np.shape (RingBuffer._buffer (RingBuffer.do_calls rb cs))
  = Np.shape (RingBuffer._buffer rb).
Proof.
  unfold RingBuffer.do_calls.
  induction cs as [| c cs IH]; intros rb; cbn [fold_left]; [reflexivity |].
  now rewrite IH, do_call_shape.
Qed.

(** [fill] with a representable integer. *)
Lemma fill_scalar rb z :
  wf rb -> Np.in_int64 z = true ->
  RingBuffer.fill rb (PyInt z)
  = ({| RingBuffer._buffer :=
          {| Np.shape := Np.shape (RingBuffer._buffer rb);
             Np.data :=
               repeat z (Np.size (Np.shape (RingBuffer._buffer rb))) |};
        RingBuffer._capacity := RingBuffer._capacity rb;
        RingBuffer._ix := RingBuffer._ix rb |}, inr tt).
Proof.
  intros [Hsh Hd _] Hz. unfold RingBuffer.fill, Np.setitem_all.
  rewrite assign_scalar; trivial. now rewrite Hsh, Hd.
Qed.

(** X7. [fill] resets the storage: after [fill] with a representable
    integer the array is the same whatever calls of [push] and [fill]
    came before, returning or raising; the cursor is not reset.  In
    particular a second [fill] with the same value changes nothing. *)
Theorem fill_forgets_history rb z calls :
  wf rb -> Np.in_int64 z = true ->
  RingBuffer._buffer
    (fst (RingBuffer.fill (RingBuffer.do_calls rb calls) (PyInt z)))
  = RingBuffer._buffer (fst (RingBuffer.fill rb (PyInt z)))
  /\ RingBuffer._ix
       (fst (RingBuffer.fill (RingBuffer.do_calls rb calls) (PyInt z)))
     = RingBuffer._ix (RingBuffer.do_calls rb calls)
  /\ RingBuffer.fill (fst (RingBuffer.fill rb (PyInt z))) (PyInt z)
     = (fst (RingBuffer.fill rb (PyInt z)), inr tt).
Proof.
  intros Hwf Hz.
  pose proof (do_calls_wf calls rb Hwf) as Hwf'.
  rewrite (fill_scalar _ z Hwf' Hz), (fill_scalar _ z Hwf Hz).
  cbn [fst RingBuffer._buffer RingBuffer._ix].
  split; [now rewrite do_calls_shape |]. split; [reflexivity |].
  rewrite fill_scalar; trivial.
  destruct Hwf as [Hsh Hd Hi]. constructor; unfold payload in *;
    cbn [RingBuffer._buffer RingBuffer._capacity RingBuffer._ix
         Np.shape Np.data]; trivial.
  rewrite repeat_length, Hsh. reflexivity.
Qed.

Lemma fill_forgets_history_witness :
  RingBuffer._buffer
    (fst (RingBuffer.fill
            (RingBuffer.do_calls rb_3x2
               [RingBuffer.Push (PyInt 1); RingBuffer.Fill PyNone])
            (PyInt 9)))
  = {| Np.shape := [3; 2]; Np.data := repeat 9%Z 6 |}
  /\ RingBuffer._ix
       (fst (RingBuffer.fill
               (RingBuffer.do_calls rb_3x2
                  [RingBuffer.Push (PyInt 1); RingBuffer.Fill PyNone])
               (PyInt 9)))
     = 0
  /\ RingBuffer.fill (fst (RingBuffer.fill rb_3x2 (PyInt 9))) (PyInt 9)
     = (fst (RingBuffer.fill rb_3x2 (PyInt 9)), inr tt).
Proof.
  apply (fill_forgets_history rb_3x2 9%Z
           [RingBuffer.Push (PyInt 1); RingBuffer.Fill PyNone]).
  - exact wf_rb_3x2.
  - reflexivity.
Defined.

Lemma sequence_cast_repeat z n :
  sequence (map (Np.cast_unsafe Np.FoundInt64) (repeat (PyInt z) n))
  = inr (repeat z n).
Proof.
  induction n as [| n IH]; [reflexivity |].
  cbn [repeat map sequence Np.cast_unsafe bind]. now rewrite IH.
Qed.

(** What [__init__] returns for a representable integer fill value. *)
Lemma init_int shape z dtype rb :
  Np.in_int64 z = true ->
  RingBuffer.__init__ shape (PyInt z) dtype = inr rb ->
  Np.dims_of shape <> [] /\ Forall (fun d => (0 <= d)%Z) (Np.dims_of shape)
  /\ rb = {| RingBuffer._buffer :=
               {| Np.shape := map Z.to_nat (Np.dims_of shape);
                  Np.data :=
                    repeat z (Np.size (map Z.to_nat (Np.dims_of shape))) |};
             RingBuffer._capacity := Z.to_nat (hd 0%Z (Np.dims_of shape));
             RingBuffer._ix := 0 |}.
Proof.
  intros Hz H. unfold RingBuffer.__init__, Np.full in H.
  destruct (Np.empty shape dtype) as [e | a] eqn:He; cbn [bind] in H;
    [discriminate |].
  destruct (empty_returns _ _ _ He) as [-> Hpos].
  unfold Np.copyto in H.
  cbn [Np.discover Np.NPY_MAXDIMS Np.leaves Np.shape length Nat.sub
       Np.strip_ones] in H.
  rewrite broadcast_scalar in H.
  cbn [Np.find_dtype map fold_left Np.item_dtype] in H.
  rewrite Hz, sequence_cast_repeat in H. cbn [bind Np.shape] in H.
  destruct (Np.dims_of shape) as [| d ds]; cbn [map] in H; [discriminate |].
  injection H as <-. repeat split; trivial. discriminate.
Qed.

(** X8. A buffer that [RingBuffer(shape, fill_value, dtype)] returns for
    a representable integer fill value was asked for with at least one
    dimension and no negative one; it has the first dimension as its
    capacity, the requested shape, every item equal to the fill value
    and the cursor at 0.  The shape [()] gives no buffer, whatever the
    fill value ([shape[0]] raises [IndexError] when [np.full] has not
    raised). *)
Theorem init_returns_buffer_of_fill_value shape z dtype rb :
  Np.in_int64 z = true ->
  RingBuffer.__init__ shape (PyInt z) dtype = inr rb ->
  Np.dims_of shape <> []
  /\ Forall (fun d => (0 <= d)%Z) (Np.dims_of shape)
  /\ Z.of_nat (RingBuffer._capacity rb) = hd 0%Z (Np.dims_of shape)
  /\ Np.shape (RingBuffer._buffer rb) = map Z.to_nat (Np.dims_of shape)
  /\ Np.data (RingBuffer._buffer rb)
     = repeat z (Np.size (map Z.to_nat (Np.dims_of shape)))
  /\ RingBuffer._ix rb = 0
  /\ forall fill_value rb0,
       RingBuffer.__init__ (Np.ShapeTuple []) fill_value dtype <> inr rb0.
Proof.
  intros Hz H. destruct (init_int _ _ _ _ Hz H) as (Hne & Hpos & ->).
  cbn [RingBuffer._capacity RingBuffer._buffer RingBuffer._ix Np.data
       Np.shape].
  split; [exact Hne |]. split; [exact Hpos |]. split.
  { apply Z2Nat.id.
    destruct (Np.dims_of shape); [contradiction | now inversion Hpos]. }
  do 3 (split; [reflexivity |]).
  intros fill_value rb0. unfold RingBuffer.__init__.
  destruct (Np.full (Np.ShapeTuple []) fill_value dtype) as [e | a] eqn:Hf;
    cbn [bind]; [discriminate |].
  destruct (full_shape _ _ _ _ Hf) as (-> & _). discriminate.
Qed.

Lemma init_returns_buffer_of_fill_value_witness :
  Z.of_nat (RingBuffer._capacity doctest_rb2d) = 5%Z
  /\ Np.data (RingBuffer._buffer doctest_rb2d) = repeat 0%Z 10
  /\ RingBuffer._ix doctest_rb2d = 0.
Proof.
  destruct (init_returns_buffer_of_fill_value
              (Np.ShapeTuple [5; 2]%Z) 0%Z Np.i8 doctest_rb2d)
    as (_ & _ & Hc & _ & Hd & Hi & _); [reflexivity | reflexivity |].
  split; [exact Hc |]. split; [exact Hd | exact Hi].
Defined.

Lemma segment_repeat {B : Type} (b : B) c n j :
  j < c -> firstn n (skipn (j * n) (repeat b (c * n))) = repeat b n.
Proof.
  intros Hj. apply nth_error_ext. intros k. rewrite nth_error_segment.
  destruct (Nat.ltb_spec k n) as [Hk | Hk].
  - rewrite !nth_error_repeat; trivial. nia.
  - symmetry. apply nth_error_None. now rewrite repeat_length.
Qed.

Lemma map_const_seq {B : Type} (f : nat -> B) b c :
  (forall j, j < c -> f j = b) -> map f (seq 0 c) = repeat b c.
Proof.
  intros H. induction c as [| c IH]; [reflexivity |].
  rewrite seq_S, map_app, IH by (intros; apply H; lia).
  cbn [map Nat.add repeat]. rewrite H by lia.
  now rewrite repeat_cons.
Qed.

Lemma skipn_repeat {B : Type} (b : B) j c :
  skipn j (repeat b c) = repeat b (c - j).
Proof.
  revert c. induction j as [| j IH]; intros c.
  - now rewrite Nat.sub_0_r.
  - destruct c as [| c]; [reflexivity |]. cbn. apply IH.
Qed.

(** X9. A buffer built with a representable integer fill value is full
    of it from the start: after [j <= capacity] pushes of well-shaped,
    representable elements the [capacity - j] oldest slots still hold
    the fill value, and each of the whole-buffer reductions [sum],
    [prod], [min], [max], [all] and [any] is over the pushed values
    together with [capacity - j] slots of fill value. *)
Theorem fresh_buffer_holds_fill_value shape z dtype rb es ws r :
  Np.in_int64 z = true ->
  RingBuffer.__init__ shape (PyInt z) dtype = inr rb ->
  0 < RingBuffer._capacity rb ->
  Forall2 (fun e w => as_slot (payload rb) e = Some w) es ws ->
  length ws <= RingBuffer._capacity rb ->
  Np.float_result r = false ->
  exists rb',
    RingBuffer.push_each rb es = (rb', inr tt)
    /\ logical rb'
       = repeat (repeat z (Np.size (payload rb)))
                (RingBuffer._capacity rb - length ws) ++ ws
    /\ RingBuffer._numpy_reduction r rb' None
       = bind (Np.reduce1 r
                 (repeat z ((RingBuffer._capacity rb - length ws)
                            * Np.size (payload rb)) ++ concat ws))
              (fun s => inr (Np.Scalar s)).
Proof.
  intros Hz Hinit Hc HF Hj Hr.
  pose proof (init_wf _ _ _ _ Hinit) as Hwf.
  destruct (init_int _ _ _ _ Hz Hinit) as (_ & _ & Hrb).
  assert (Hix : RingBuffer._ix rb = 0) by (now rewrite Hrb).
  assert (Hlog : logical rb
                 = repeat (repeat z (Np.size (payload rb)))
                          (RingBuffer._capacity rb)).
  { unfold logical. apply map_const_seq. intros j Hlt.
    rewrite Hix. cbn [Nat.add]. rewrite Nat.mod_small by trivial.
    unfold slot. destruct Hwf as [Hsh Hd _].
    assert (Hdata : Np.data (RingBuffer._buffer rb)
                    = repeat z (Np.size (Np.shape (RingBuffer._buffer rb))))
      by (rewrite Hrb; reflexivity).
    rewrite Hdata, Hsh.
    change (Np.size (RingBuffer._capacity rb :: payload rb))
      with (RingBuffer._capacity rb * Np.size (payload rb)).
    now apply segment_repeat. }
  destruct (push_each_logical es ws rb HF Hwf)
    as (rb' & Hp & Hwf' & _ & _ & Hl); [lia |].
  assert (Hl' : logical rb'
                = repeat (repeat z (Np.size (payload rb)))
                         (RingBuffer._capacity rb - length ws) ++ ws).
  { rewrite Hl, Hlog, skipn_app, skipn_repeat, repeat_length.
    replace (length ws - RingBuffer._capacity rb) with 0 by lia.
    reflexivity. }
  exists rb'. split; [exact Hp |]. split; [exact Hl' |].
  unfold RingBuffer._numpy_reduction, Np.reduce.
  cbn [RingBuffer.axis_in_None_0 negb].
  f_equal. apply reduce1_Permutation; [exact Hr |].
  rewrite <- (concat_slots rb') by trivial.
  rewrite <- concat_repeat_repeat, <- concat_app, <- Hl'.
  apply Permutation_concat. symmetry. apply logical_slots.
Qed.

Lemma fresh_buffer_holds_fill_value_witness :
  exists rb',
    RingBuffer.push_each doctest_rb [PyInt 3; PyInt 4] = (rb', inr tt)
    /\ logical rb' = [[0]; [0]; [0]; [3]; [4]]%Z
    /\ RingBuffer._numpy_reduction Np.Min rb' None
       = inr (Np.Scalar (Np.int64 0)).
Proof.
  apply (fresh_buffer_holds_fill_value (Np.ShapeInt 5) 0%Z Np.i8 doctest_rb
           [PyInt 3; PyInt 4] [[3]; [4]]%Z Np.Min).
  - reflexivity.
  - reflexivity.
  - cbn. lia.
  - repeat constructor.
  - cbn. lia.
  - reflexivity.
Defined.

(** * Reductions of a buffer that holds one value *)

Lemma fold_left_max_repeat z m : fold_left Z.max (repeat z m) z = z.
Proof. induction m as [| m IH]; cbn; [reflexivity | now rewrite Z.max_id]. Qed.

Lemma fold_left_min_repeat z m : fold_left Z.min (repeat z m) z = z.
Proof. induction m as [| m IH]; cbn; [reflexivity | now rewrite Z.min_id]. Qed.

Lemma forallb_repeat {B : Type} (p : B -> bool) b m :
  forallb p (repeat b (S m)) = p b.
Proof.
  induction m as [| m IH]; cbn in *; [apply andb_true_r |].
  rewrite IH. now destruct (p b).
Qed.

Lemma existsb_repeat {B : Type} (p : B -> bool) b m :
  existsb p (repeat b (S m)) = p b.
Proof.
  induction m as [| m IH]; cbn in *; [apply orb_false_r |].
  rewrite IH. now destruct (p b).
Qed.

Lemma fold_left_add_repeat z n : forall a,
  fold_left Z.add (repeat z n) a = (a + Z.of_nat n * z)%Z.
Proof.
  induction n as [| n IH]; intros a.
  - cbn. lia.
  - cbn [repeat fold_left]. rewrite IH. lia.
Qed.

(** X10. After [fill] with a representable integer [z], on a buffer that
    has items: [min()] and [max()] are [z], [sum()] is the int64 product
    of [z] by the number of items, and [all()] and [any()] tell whether
    [z] is not 0. *)
Theorem reductions_after_fill rb z :
  wf rb -> Np.in_int64 z = true ->
  0 < length (Np.data (RingBuffer._buffer rb)) ->
  RingBuffer.min (fst (RingBuffer.fill rb (PyInt z))) None
  = inr (Np.Scalar (Np.int64 z))
  /\ RingBuffer.max (fst (RingBuffer.fill rb (PyInt z))) None
     = inr (Np.Scalar (Np.int64 z))
  /\ RingBuffer.sum (fst (RingBuffer.fill rb (PyInt z))) None
     = inr (Np.Scalar
              (Np.int64
                 (Np.wrap64
                    (Z.of_nat (length (Np.data (RingBuffer._buffer rb)))
                     * z))))
  /\ RingBuffer.all (fst (RingBuffer.fill rb (PyInt z))) None
     = inr (Np.Scalar (Np.bool_ (negb (z =? 0)%Z)))
  /\ RingBuffer.any (fst (RingBuffer.fill rb (PyInt z))) None
     = inr (Np.Scalar (Np.bool_ (negb (z =? 0)%Z))).
Proof.
  intros Hwf Hz Hpos. rewrite (fill_scalar rb z Hwf Hz).
  destruct Hwf as [Hsh Hd _].
  assert (Hn : Np.size (Np.shape (RingBuffer._buffer rb))
               = length (Np.data (RingBuffer._buffer rb)))
    by (now rewrite Hsh, Hd).
  unfold RingBuffer.min, RingBuffer.max, RingBuffer.sum,
    RingBuffer.all, RingBuffer.any,
    RingBuffer._numpy_reduction, Np.reduce.
  cbn [fst RingBuffer._buffer Np.data RingBuffer.axis_in_None_0 negb].
  rewrite Hn.
  destruct (length (Np.data (RingBuffer._buffer rb))) as [| m];
    [lia |].
  cbn [Np.reduce1]. rewrite sum_int64_sum. unfold int64_sum.
  rewrite fold_left_add_repeat, forallb_repeat, existsb_repeat.
  cbn [repeat bind].
  rewrite fold_left_min_repeat, fold_left_max_repeat.
  repeat split.
Qed.

Lemma reductions_after_fill_witness :
  RingBuffer.min (fst (RingBuffer.fill rb_3x2 (PyInt 9))) None
  = inr (Np.Scalar (Np.int64 9))
  /\ RingBuffer.max (fst (RingBuffer.fill rb_3x2 (PyInt 9))) None
     = inr (Np.Scalar (Np.int64 9))
  /\ RingBuffer.sum (fst (RingBuffer.fill rb_3x2 (PyInt 9))) None
     = inr (Np.Scalar (Np.int64 54))
  /\ RingBuffer.all (fst (RingBuffer.fill rb_3x2 (PyInt 9))) None
     = inr (Np.Scalar (Np.bool_ true))
  /\ RingBuffer.any (fst (RingBuffer.fill rb_3x2 (PyInt 9))) None
     = inr (Np.Scalar (Np.bool_ true)).
Proof.
  apply (reductions_after_fill rb_3x2 9%Z).
  - exact wf_rb_3x2.
  - reflexivity.
  - cbn. lia.
Defined.

(** * Sums along axis 0 *)

Lemma sequence_map_inr {B C : Type} (f : B -> C) l :
  sequence (map (fun x => inr (f x) : result C) l) = inr (map f l).
Proof.
  induction l as [| x l IH]; [reflexivity |].
  cbn [map sequence bind]. now rewrite IH.
Qed.

Lemma fold_left_add_init l : forall a,
  fold_left Z.add l a = (a + fold_left Z.add l 0)%Z.
Proof.
  induction l as [| x l IH]; intros a; cbn [fold_left]; [lia |].
  rewrite (IH (a + x)%Z), (IH (0 + x)%Z). lia.
Qed.

Lemma Zsum_app l l' :
  fold_left Z.add (l ++ l') 0%Z
  = (fold_left Z.add l 0 + fold_left Z.add l' 0)%Z.
Proof. now rewrite fold_left_app, fold_left_add_init. Qed.

Lemma Zsum_map_add {B : Type} (f g : B -> Z) l :
  fold_left Z.add (map (fun x => f x + g x)%Z l) 0%Z
  = (fold_left Z.add (map f l) 0 + fold_left Z.add (map g l) 0)%Z.
Proof.
  induction l as [| x l IH]; [reflexivity |].
  cbn [map fold_left].
  rewrite (fold_left_add_init _ (0 + (f x + g x))%Z),
    (fold_left_add_init _ (0 + f x)%Z), (fold_left_add_init _ (0 + g x)%Z), IH.
  lia.
Qed.

Lemma Zsum_map_0 {B : Type} (l : list B) :
  fold_left Z.add (map (fun _ => 0%Z) l) 0%Z = 0%Z.
Proof. induction l as [| x l IH]; [reflexivity | exact IH]. Qed.

(** The sums of the columns add up to the sum of all the items. *)
Lemma Zsum_columns n c : forall d : list Z,
  length d = c * n ->
  fold_left Z.add
    (map (fun j => fold_left Z.add
                     (map (fun i => nth (i * n + j) d 0%Z) (seq 0 c)) 0%Z)
         (seq 0 n)) 0%Z
  = fold_left Z.add d 0%Z.
Proof.
  induction c as [| c IH]; intros d Hd.
  - destruct d; [| discriminate]. cbn [seq map fold_left]. apply Zsum_map_0.
  - assert (Hf : map (fun j => nth j d 0%Z) (seq 0 n) = firstn n d).
    { transitivity (map (fun j => nth j (firstn n d) 0%Z)
                        (seq 0 (length (firstn n d))));
        [| apply map_nth_seq].
      rewrite length_firstn, Nat.min_l by lia.
      apply map_ext_in. intros j Hj. apply in_seq in Hj.
      rewrite nth_firstn. now destruct (Nat.ltb_spec j n); [| lia]. }
    transitivity (fold_left Z.add (firstn n d) 0
                  + fold_left Z.add (skipn n d) 0)%Z;
      [| now rewrite <- Zsum_app, firstn_skipn].
    rewrite <- (IH (skipn n d)) by (rewrite length_skipn; lia).
    rewrite <- Hf, <- Zsum_map_add. f_equal. apply map_ext. intros j.
    cbn [seq map fold_left].
    rewrite <- seq_shift, map_map, fold_left_add_init.
    cbn [Nat.mul Nat.add]. rewrite Z.add_0_l. f_equal. f_equal.
    apply map_ext. intros i. rewrite nth_skipn. f_equal. lia.
Qed.

Lemma wrap64_congr a b y :
  Np.wrap64 a = Np.wrap64 b -> Np.wrap64 (a + y) = Np.wrap64 (b + y).
Proof.
  intros H. now rewrite <- (wrap64_add_l a), <- (wrap64_add_l b), H.
Qed.

(** Wrapping the terms of an int64 sum does not change the sum. *)
Lemma wrap64_sum_of_wrapped {B : Type} (f : B -> Z) l : forall a b,
  Np.wrap64 a = Np.wrap64 b ->
  Np.wrap64 (fold_left Z.add (map (fun x => Np.wrap64 (f x)) l) a)
  = Np.wrap64 (fold_left Z.add (map f l) b).
Proof.
  induction l as [| x l IH]; intros a b H; cbn [map fold_left]; [exact H |].
  apply IH.
  rewrite (Z.add_comm a), (Z.add_comm b), wrap64_add_l.
  rewrite !(Z.add_comm (f x)). now apply wrap64_congr.
Qed.

(** X11. On a buffer of two or more dimensions, [sum(axis=0)] is the array,
    of the shape of a slot, of the int64 sums of the columns (item [j] of
    every slot), and the whole-buffer [sum()] is the int64 sum of these
    sums. *)
Theorem sum_axis_0_is_column_sums rb :
  wf rb -> payload rb <> [] ->
  RingBuffer.sum rb (Some 0%Z)
  = inr (Np.Array (payload rb)
           (map (fun j => Np.int64 (int64_sum (column rb j)))
                (seq 0 (Np.size (payload rb)))))
  /\ RingBuffer.sum rb None
     = inr (Np.Scalar
              (Np.int64
                 (int64_sum
                    (map (fun j => int64_sum (column rb j))
                         (seq 0 (Np.size (payload rb))))))).
Proof.
  intros [Hsh Hd _] Hp. split.
  - unfold RingBuffer.sum, RingBuffer._numpy_reduction.
    cbn [RingBuffer.axis_in_None_0 Z.eqb negb].
    rewrite (reduce_axis_0 _ _ _ _ Hsh).
    rewrite reduce_lane_exact by reflexivity.
    cbn [Np.no_identity]. rewrite andb_false_r.
    assert (Hl : map (fun i =>
                        Np.reduce1 Np.Sum
                          (map (fun j => nth (j * Np.size (payload rb) + i)
                                           (Np.data (RingBuffer._buffer rb))
                                           0%Z)
                               (seq 0 (RingBuffer._capacity rb))))
                     (seq 0 (Np.size (payload rb)))
                 = map (fun j => inr (Np.int64 (int64_sum (column rb j)))
                                 : result Np.scalar)
                       (seq 0 (Np.size (payload rb)))).
    { apply map_ext_in. intros j Hj. apply in_seq in Hj. cbn [Np.reduce1].
      rewrite sum_int64_sum. do 3 f_equal. unfold column.
      apply map_ext. intros i. symmetry. apply nth_slot. lia. }
    rewrite Hl, sequence_map_inr. cbn [bind].
    destruct (payload rb); [contradiction | reflexivity].
  - unfold RingBuffer.sum, RingBuffer._numpy_reduction, Np.reduce.
    cbn [RingBuffer.axis_in_None_0 negb Np.reduce1 bind].
    rewrite sum_int64_sum. do 3 f_equal. unfold int64_sum at 1 2.
    rewrite <- (Zsum_columns (Np.size (payload rb)) (RingBuffer._capacity rb))
      by exact Hd.
    symmetry.
    rewrite <- (map_map (fun j => fold_left Z.add (column rb j) 0%Z)
                        Np.wrap64) at 1.
    unfold int64_sum.
    rewrite (map_ext_in
               (fun j => fold_left Z.add
                           (map (fun i => nth (i * Np.size (payload rb) + j)
                                            (Np.data (RingBuffer._buffer rb))
                                            0%Z)
                                (seq 0 (RingBuffer._capacity rb))) 0%Z)
               (fun j => fold_left Z.add (column rb j) 0%Z)).
    + rewrite map_map.
      now apply (wrap64_sum_of_wrapped
                   (fun j => fold_left Z.add (column rb j) 0%Z)).
    + intros j Hj. apply in_seq in Hj. f_equal. unfold column.
      apply map_ext. intros i. symmetry. apply nth_slot. lia.
Qed.

Lemma sum_axis_0_is_column_sums_witness :
  RingBuffer.sum rb_3x2 (Some 0%Z)
  = inr (Np.Array [2] [Np.int64 9; Np.int64 12])
  /\ RingBuffer.sum rb_3x2 None = inr (Np.Scalar (Np.int64 21)).
Proof.
  apply (sum_axis_0_is_column_sums rb_3x2).
  - exact wf_rb_3x2.
  - discriminate.
Defined.

(** * Reductions that return *)

Lemma reduce1_returns r xs :
  xs <> [] -> exists s, Np.reduce1 r xs = inr s.
Proof.
  intros H. destruct xs as [| x xs]; [contradiction |].
  destruct r; cbn [Np.reduce1]; eexists; reflexivity.
Qed.

Lemma reduce1_strided_returns r xs :
  xs <> [] -> exists s, Np.reduce1_strided r xs = inr s.
Proof.
  intros H.
  destruct r; cbn [Np.reduce1_strided]; try (now apply reduce1_returns);
    eexists; reflexivity.
Qed.

Lemma sequence_returns {B C : Type} (f : B -> result C) l :
  (forall x, In x l -> exists c, f x = inr c) ->
  exists cs, sequence (map f l) = inr cs.
Proof.
  induction l as [| x l IH]; intros H; [now exists [] |].
  destruct (H x (or_introl eq_refl)) as [c Hc].
  destruct IH as [cs Hcs]; [intros y Hy; apply H; now right |].
  exists (c :: cs). cbn [map sequence]. now rewrite Hc, Hcs.
Qed.

(** X12. On a buffer that has items (a capacity and payload dimensions of
    at least 1), no reduction raises with [axis=None] or [axis=0]: each of
    the eight returns a value. *)
Theorem reductions_return_on_items rb r axis :
  wf rb -> 0 < length (Np.data (RingBuffer._buffer rb)) ->
  axis = None \/ axis = Some 0%Z ->
  exists v, RingBuffer._numpy_reduction r rb axis = inr v.
Proof.
  intros [Hsh Hd _] Hpos Hax. unfold RingBuffer._numpy_reduction.
  destruct Hax as [-> | ->]; cbn [RingBuffer.axis_in_None_0 Z.eqb negb].
  - unfold Np.reduce.
    destruct (reduce1_returns r (Np.data (RingBuffer._buffer rb))) as [s Hs].
    + intros E. rewrite E in Hpos. cbn in Hpos. lia.
    + rewrite Hs. cbn [bind]. now eexists.
  - rewrite (reduce_axis_0 _ _ _ _ Hsh).
    destruct (RingBuffer._capacity rb) as [| c] eqn:Hc; [cbn in Hd; lia |].
    cbn [Nat.eqb andb].
    destruct (sequence_returns
                (fun i => (if Np.size (payload rb) =? 1 then Np.reduce1 r
                           else Np.reduce1_strided r)
                            (map (fun j => nth (j * Np.size (payload rb) + i)
                                             (Np.data (RingBuffer._buffer rb))
                                             0%Z)
                                 (seq 0 (S c))))
                (seq 0 (Np.size (payload rb)))) as [items Hi].
    + intros i _.
      destruct (_ =? 1);
        [apply reduce1_returns | apply reduce1_strided_returns];
        discriminate.
    + rewrite Hi. cbn [bind]. destruct (payload rb); now eexists.
Qed.

Lemma reductions_return_on_items_witness :
  exists v, RingBuffer._numpy_reduction Np.Min rb_3x2 (Some 0%Z) = inr v.
Proof.
  apply (reductions_return_on_items rb_3x2 Np.Min (Some 0%Z)).
  - exact wf_rb_3x2.
  - cbn. lia.
  - now right.
Defined.

(** * The message of ExplodingObject *)

Lemma printable_app a b :
  printable (a ++ b) = printable a && printable b.
Proof.
  induction a as [| c a IH]; [reflexivity |].
  cbn [append printable]. now rewrite IH, andb_assoc.
Qed.

Lemma repr_char_printable quote c :
  quote = ExplodingObject.squote \/ quote = ExplodingObject.dquote ->
  printable (ExplodingObject.repr_char quote c) = true.
Proof.
  intros [-> | ->]; destruct c as [[] [] [] [] [] [] [] []]; reflexivity.
Qed.

Lemma repr_body_printable quote s :
  quote = ExplodingObject.squote \/ quote = ExplodingObject.dquote ->
  printable (ExplodingObject.repr_body quote s) = true.
Proof.
  intros Hq. induction s as [| c s IH]; [reflexivity |].
  cbn [ExplodingObject.repr_body].
  now rewrite printable_app, repr_char_printable, IH.
Qed.

Lemma repr_printable s : printable (ExplodingObject.repr s) = true.
Proof.
  unfold ExplodingObject.repr. cbv zeta.
  destruct (_ && _)%bool; cbn [printable];
    rewrite printable_app, repr_body_printable by auto; reflexivity.
Qed.

Lemma message_printable attr name :
  printable ("attempted to access attribute " ++ ExplodingObject.repr attr
             ++ " of ExplodingObject " ++ ExplodingObject.repr name)
  = true.
Proof. rewrite !printable_app, !repr_printable. reflexivity. Qed.

(** X13. The message of the [AttributeError] that [__getattr__] raises
    never has a control character, whatever the characters of the
    attribute name and of the object's name: [%r] escapes them, so the
    message is one line. *)
Theorem getattr_message_printable (self : ExplodingObject.t) attr :
  exists m,
    @ExplodingObject.__getattr__ unit self attr = raise AttributeError m
    /\ printable m = true.
Proof.
  eexists. split; [reflexivity |]. apply message_printable.
Qed.

(** * The Returns metric *)

Section ReturnsProperties.

Context {N : Returns.Number} {T : Returns.Time}.

(** While [_daily_returns] is [None], [_compute] raises and changes
    neither the object nor the dicts of the packet. *)
Lemma compute_None self key p h ledger dt :
  Returns._daily_returns self = None ->
  exists e, Returns._compute self key p h ledger dt = (self, h, inl e).
Proof.
  intros H. unfold Returns._compute. rewrite H.
  destruct (Returns.truediv _ _); eexists; reflexivity.
Qed.

Lemma driven_daily_returns self :
  driven self -> Returns._daily_returns self = None.
Proof.
  induction 1 as [| self f l b _ IH | self p h ledger dt _ IH
                  | self p h ledger dt _ IH].
  - reflexivity.
  - exact IH.
  - unfold Returns.end_of_minute.
    destruct (compute_None self "minute_perf" p h ledger dt IH) as [e ->].
    exact IH.
  - unfold Returns.end_of_day.
    destruct (compute_None self "daily_perf" p h ledger dt IH) as [e ->].
    exact IH.
Qed.

(** [d[k] = v] then [d.get(k)]. *)
Lemma dict_get_setitem d k v :
  dict_get (Returns.dict_setitem d k v) k = Some v.
Proof.
  unfold dict_get. induction d as [| [k' v'] d IH]; cbn.
  - now rewrite String.eqb_refl.
  - destruct (String.eqb k' k) eqn:E; cbn; rewrite E; [reflexivity |].
    exact IH.
Qed.

Lemma find_packet p key r :
  Returns.packet_getitem p key = inr r ->
  exists kv, find (fun kv => String.eqb (fst kv) key) p = Some kv
             /\ snd kv = r.
Proof.
  unfold Returns.packet_getitem.
  destruct (find _ p) as [kv |]; [| discriminate].
  intros [= <-]. now exists kv.
Qed.

(** Setting the rows of a label twice is setting them once, to the second
    value. *)
Lemma Series_setitem_twice s label v v' :
  Returns.timestamp_eqb label label = true ->
  Returns.Series_setitem (Returns.Series_setitem s label v) label v'
  = Returns.Series_setitem s label v'.
Proof.
  intros Hrefl. unfold Returns.Series_setitem.
  destruct (existsb (fun row => Returns.timestamp_eqb (fst row) label) s)
    eqn:Hex.
  - replace (existsb _ (map _ s)) with true.
    + rewrite map_map. apply map_ext. intros [l x]. cbn [fst].
      destruct (Returns.timestamp_eqb l label) eqn:E; cbn [fst]; now rewrite E.
    + symmetry. rewrite existsb_exists in *.
      destruct Hex as ([l x] & Hin & E). cbn [fst] in E.
      exists (l, v). split; [| exact E].
      apply in_map_iff. exists (l, x). cbn [fst]. now rewrite E.
  - rewrite existsb_app, Hex. cbn [existsb fst orb]. rewrite Hrefl.
    cbn [orb]. rewrite map_app. cbn [map fst]. rewrite Hrefl. f_equal.
    rewrite <- (map_id s) at 2. apply map_ext_in. intros [l x] Hin.
    cbn [fst]. destruct (Returns.timestamp_eqb l label) eqn:E; [| reflexivity].
    exfalso. apply not_true_iff_false in Hex. apply Hex.
    apply existsb_exists. now exists (l, x).
Qed.

Lemma Series_get_setitem s label v :
  Returns.timestamp_eqb label label = true ->
  Series_get (Returns.Series_setitem s label v) label = Some v.
Proof.
  intros Hrefl. unfold Series_get, Returns.Series_setitem.
  destruct (existsb (fun row => Returns.timestamp_eqb (fst row) label) s)
    eqn:Hex.
  - induction s as [| [l x] s IH]; [discriminate |].
    cbn [existsb map find fst] in *.
    destruct (Returns.timestamp_eqb l label) eqn:E; cbn [fst]; rewrite E.
    + reflexivity.
    + apply IH. exact Hex.
  - induction s as [| [l x] s IH]; cbn [app find fst].
    + now rewrite Hrefl.
    + cbn [existsb fst] in Hex. apply orb_false_iff in Hex.
      destruct Hex as [E Hex]. rewrite E. now apply IH.
Qed.

(** The object after [_compute], when [_daily_returns] holds a series and
    the division returns: whatever happens with the packet. *)
Lemma compute_object self s key p h ledger dt q :
  Returns._daily_returns self = Some s ->
  Returns.truediv
    (Returns.add (Returns._previous_total_returns self) Returns.one)
    (Returns.returns (Returns.portfolio ledger)) = inr q ->
  fst (fst (Returns._compute self key p h ledger dt))
  = {| Returns._daily_returns :=
         Some (Returns.Series_setitem s (Returns.normalize dt)
                 (Returns.sub q Returns.one));
       Returns._benchmark_returns := Returns._benchmark_returns self;
       Returns._previous_total_returns :=
         Returns.returns (Returns.portfolio ledger);
       Returns.benchmark_returns := Returns.benchmark_returns self;
       Returns.daily_returns := Returns.daily_returns self |}.
Proof.
  intros Hs Hq. unfold Returns._compute. rewrite Hq, Hs.
  destruct (Returns.packet_getitem p key); [reflexivity |].
  destruct (Returns.packet_getitem p "cumulative_perf"); reflexivity.
Qed.

(** X14. A [Returns] object that is only driven through its own methods
    never records a return: [start_of_simulation] assigns [daily_returns]
    and [benchmark_returns], not [_daily_returns], which stays [None]; so
    [end_of_minute] and [end_of_day] always raise (the [TypeError] of an
    item assignment on [None], when the division has returned) and leave
    the object and the dicts of the packet as they were. *)
Theorem hooks_raise_on_driven_object {D : Type} self p h ledger dt
    (data_portal : D) :
  driven self ->
  Returns._daily_returns self = None
  /\ (exists e,
        Returns.end_of_minute self p h ledger dt data_portal
        = (self, h, inl e))
  /\ (exists e,
        Returns.end_of_day self p h ledger dt data_portal = (self, h, inl e))
  /\ (forall q,
        Returns.truediv
          (Returns.add (Returns._previous_total_returns self) Returns.one)
          (Returns.returns (Returns.portfolio ledger)) = inr q ->
        Returns.end_of_day self p h ledger dt data_portal
        = (self, h,
           inl (Returns.PyExn (Raise TypeError Returns.NoneType_setitem)))).
Proof.
  intros Hd. pose proof (driven_daily_returns self Hd) as Hnone.
  split; [exact Hnone |]. split; [| split].
  - now apply compute_None.
  - now apply compute_None.
  - intros q Hq. unfold Returns.end_of_day, Returns._compute.
    now rewrite Hq, Hnone.
Qed.

(** X15. When [_daily_returns] holds a series and the division returns,
    [_compute] updates the object before it writes to the packet: the
    return of the period, [(previous + 1) / current - 1], is stored under
    [dt.normalize()] and [_previous_total_returns] becomes the current
    total, also when [packet[key]] then raises [KeyError].  When both keys
    are there, [packet['cumulative_perf']['returns']] is the current total
    and, unless the two keys hold the same dict, [packet[key]['returns']]
    is the return of the period; no other dict is touched. *)
Theorem compute_updates_object_then_packet self s key p h ledger dt q :
  Returns._daily_returns self = Some s ->
  Returns.truediv
    (Returns.add (Returns._previous_total_returns self) Returns.one)
    (Returns.returns (Returns.portfolio ledger)) = inr q ->
  let current := Returns.returns (Returns.portfolio ledger) in
  let todays := Returns.sub q Returns.one in
  let self' := fst (fst (Returns._compute self key p h ledger dt)) in
  let h' := snd (fst (Returns._compute self key p h ledger dt)) in
  let outcome := snd (Returns._compute self key p h ledger dt) in
  Returns._previous_total_returns self' = current
  /\ Returns._daily_returns self'
     = Some (Returns.Series_setitem s (Returns.normalize dt) todays)
  /\ (forall e, Returns.packet_getitem p key = inl e ->
                outcome = inl (Returns.KeyError key) /\ h' = h)
  /\ (forall a b,
        Returns.packet_getitem p key = inr a ->
        Returns.packet_getitem p "cumulative_perf" = inr b ->
        outcome = inr tt
        /\ dict_get (h' b) "returns" = Some current
        /\ (a <> b -> dict_get (h' a) "returns" = Some todays)
        /\ (forall c, c <> a -> c <> b -> h' c = h c)).
Proof.
  intros Hs Hq current todays self' h' outcome.
  unfold self'. rewrite (compute_object _ _ _ _ _ _ _ _ Hs Hq).
  split; [reflexivity |]. split; [reflexivity |].
  unfold h', outcome, Returns._compute. rewrite Hq, Hs. split.
  - intros e He. rewrite He. cbn [fst snd].
    unfold Returns.packet_getitem in He.
    destruct (find _ p); [discriminate |]. now injection He as <-.
  - intros a b Ha Hb. rewrite Ha, Hb. cbn [fst snd].
    unfold Returns.store_set. split; [reflexivity |]. split; [| split].
    + rewrite Nat.eqb_refl. apply dict_get_setitem.
    + intros Hab. destruct (Nat.eqb_spec a b) as [| _]; [contradiction |].
      rewrite Nat.eqb_refl. apply dict_get_setitem.
    + intros c Hca Hcb.
      destruct (Nat.eqb_spec c b) as [| _]; [contradiction |].
      now destruct (Nat.eqb_spec c a) as [| _]; [contradiction |].
Qed.

(** X16. Two calls of [_compute] on the same day (timestamps with the
    same [normalize()]) leave one value for the day, the second: the
    return of the second period, computed from the total of the first
    call, [(current1 + 1) / current2 - 1]; the row of the day is set, not
    added again. *)
Theorem same_day_overwrites self s key1 key2 p h ledger1 ledger2 dt1 dt2
    q1 q2 :
  Returns.timestamp_eqb (Returns.normalize dt1) (Returns.normalize dt1)
  = true ->
  Returns.normalize dt2 = Returns.normalize dt1 ->
  Returns._daily_returns self = Some s ->
  Returns.truediv
    (Returns.add (Returns._previous_total_returns self) Returns.one)
    (Returns.returns (Returns.portfolio ledger1)) = inr q1 ->
  Returns.truediv
    (Returns.add (Returns.returns (Returns.portfolio ledger1)) Returns.one)
    (Returns.returns (Returns.portfolio ledger2)) = inr q2 ->
  let self1 := fst (fst (Returns._compute self key1 p h ledger1 dt1)) in
  let h1 := snd (fst (Returns._compute self key1 p h ledger1 dt1)) in
  let self2 := fst (fst (Returns._compute self1 key2 p h1 ledger2 dt2)) in
  let series2 :=
    Returns.Series_setitem s (Returns.normalize dt1)
      (Returns.sub q2 Returns.one) in
  Returns._daily_returns self2 = Some series2
  /\ Series_get series2 (Returns.normalize dt1)
     = Some (Returns.sub q2 Returns.one)
  /\ Returns._previous_total_returns self2
     = Returns.returns (Returns.portfolio ledger2).
Proof.
  intros Hrefl Hday Hs Hq1 Hq2 self1 h1 self2 series2.
  pose proof (compute_object _ _ key1 p h _ dt1 _ Hs Hq1) as H1.
  fold self1 in H1.
  assert (Hs1 : Returns._daily_returns self1
                = Some (Returns.Series_setitem s (Returns.normalize dt1)
                          (Returns.sub q1 Returns.one)))
    by (rewrite H1; reflexivity).
  assert (Hp1 : Returns._previous_total_returns self1
                = Returns.returns (Returns.portfolio ledger1))
    by (rewrite H1; reflexivity).
  rewrite <- Hp1 in Hq2.
  pose proof (compute_object self1 _ key2 p h1 ledger2 dt2 q2 Hs1 Hq2) as H2.
  fold self2 in H2.
  rewrite H2. cbn [Returns._daily_returns Returns._previous_total_returns].
  rewrite Hday, Series_setitem_twice by exact Hrefl.
  split; [reflexivity |]. split; [| reflexivity].
  now apply Series_get_setitem.
Qed.

End ReturnsProperties.

Lemma hooks_raise_on_driven_object_witness :
  Returns._daily_returns returns_started = None
  /\ exists e,
       Returns.end_of_day returns_started example_packet empty_dicts
         example_ledger 100%Z tt
       = (returns_started, empty_dicts, inl e).
Proof.
  destruct (hooks_raise_on_driven_object returns_started example_packet
              empty_dicts example_ledger 100%Z tt)
    as (Hnone & _ & Hday & _).
  - apply driven_start. apply driven_init.
  - split; [exact Hnone | exact Hday].
Defined.

Lemma compute_updates_object_then_packet_witness :
  Returns._previous_total_returns
    (fst (fst (Returns._compute returns_with_series "daily_perf"
                 example_packet empty_dicts example_ledger 100%Z)))
  = Some (1 # 2)%Q
  /\ snd (Returns._compute returns_with_series "weekly_perf"
            example_packet empty_dicts example_ledger 100%Z)
     = inl (Returns.KeyError "weekly_perf")
  /\ dict_get
       (snd (fst (Returns._compute returns_with_series "daily_perf"
                    example_packet empty_dicts example_ledger 100%Z)) 1)
       "returns"
     = Some (Some 1%Q).
Proof.
  destruct (compute_updates_object_then_packet returns_with_series
              one_day "daily_perf" example_packet empty_dicts
              example_ledger 100%Z (Some 2%Q) eq_refl eq_refl)
    as (Hprev & _ & _ & Hok).
  destruct (compute_updates_object_then_packet returns_with_series
              one_day "weekly_perf" example_packet empty_dicts
              example_ledger 100%Z (Some 2%Q) eq_refl eq_refl)
    as (_ & _ & Hkey & _).
  split; [exact Hprev |]. split.
  - apply (Hkey (Returns.KeyError "weekly_perf")). reflexivity.
  - apply (Hok 1 2); [reflexivity | reflexivity | discriminate].
Defined.

Lemma same_day_overwrites_witness :
  Returns._daily_returns
    (fst (fst (Returns._compute
                 (fst (fst (Returns._compute returns_with_series
                              "minute_perf" example_packet empty_dicts
                              example_ledger 100%Z)))
                 "minute_perf" example_packet
                 (snd (fst (Returns._compute returns_with_series
                              "minute_perf" example_packet empty_dicts
                              example_ledger 100%Z)))
                 example_ledger 160%Z)))
  = Some [(0%Z, Some 2%Q)].
Proof.
  apply (same_day_overwrites returns_with_series one_day
           "minute_perf" "minute_perf" example_packet empty_dicts
           example_ledger example_ledger 100%Z 160%Z
           (Some 2%Q) (Some 3%Q));
    reflexivity.
Defined.

(** * Elements that are refused *)

(** A scalar that does not convert: the assignment raises the exception
    of the conversion and the destination is as it was. *)
Lemma assign_bad_scalar sh dst v e :
  length dst = Np.size sh -> (forall xs, v <> PyList xs) ->
  Np.to_int64 v = inl e ->
  Np.assign sh dst v = (dst, inl e).
Proof.
  intros Hdst Hv He. unfold Np.assign, Np.pack_new.
  replace (Np.discover (length sh) v) with (Some (@nil nat))
    by (destruct sh, v; try reflexivity; now destruct (Hv xs)).
  replace (Np.leaves (length sh) v) with [v]
    by (destruct sh, v; try reflexivity; now destruct (Hv xs)).
  destruct sh as [| c sh].
  - destruct dst as [| x [| y dst]]; try discriminate.
    cbn. now rewrite He.
  - cbn [Np.shape_eqb map sequence]. now rewrite He.
Qed.

Lemma length_slot rb :
  wf rb -> RingBuffer._ix rb < RingBuffer._capacity rb ->
  length (slot rb (RingBuffer._ix rb)) = Np.size (payload rb).
Proof.
  intros [_ Hd _] Hix. unfold slot.
  rewrite length_firstn, length_skipn, Hd.
  assert (RingBuffer._ix rb * Np.size (payload rb) + Np.size (payload rb)
          <= RingBuffer._capacity rb * Np.size (payload rb)) by nia.
  lia.
Qed.

(** What [push] does when the assignment to the slot raises and leaves
    the slot as it was. *)
Lemma push_assign_raises rb element e :
  wf rb -> RingBuffer._ix rb < RingBuffer._capacity rb ->
  Np.assign (payload rb) (slot rb (RingBuffer._ix rb)) element
  = (slot rb (RingBuffer._ix rb), inl e) ->
  RingBuffer.push rb element = (rb, inl e).
Proof.
  intros [Hsh Hd _] Hix Ha.
  destruct rb as [[sh d] c i]. unfold slot in *. unfold payload in *.
  cbn [RingBuffer._buffer RingBuffer._capacity RingBuffer._ix
       Np.shape Np.data] in *.
  destruct sh as [| c0 p]; [discriminate |]. injection Hsh as ->.
  cbn [tl] in *.
  unfold RingBuffer.push, Np.setitem_int.
  cbn [RingBuffer._buffer RingBuffer._capacity RingBuffer._ix
       Np.shape Np.data].
  destruct (Nat.leb_spec c i) as [Hle | _]; [lia |].
  rewrite Ha, splice_same. reflexivity.
Qed.

(** X17. A scalar that the dtype cannot hold is refused whole: on a
    buffer with a valid cursor, [push] of an integer outside the int64
    range raises [OverflowError] and [push] of [None] raises [TypeError],
    and so does [fill]; the buffer is as it was. *)
Theorem unrepresentable_scalar_is_refused rb z :
  wf rb -> RingBuffer._ix rb < RingBuffer._capacity rb ->
  Np.in_int64 z = false ->
  RingBuffer.push rb (PyInt z)
  = (rb, raise OverflowError "Python int too large to convert to C long")
  /\ RingBuffer.fill rb (PyInt z)
     = (rb, raise OverflowError "Python int too large to convert to C long")
  /\ RingBuffer.push rb PyNone
     = (rb, raise TypeError "int() argument must be a string or a number")
  /\ RingBuffer.fill rb PyNone
     = (rb, raise TypeError "int() argument must be a string or a number").
Proof.
  intros Hwf Hix Hz.
  assert (Hto : Np.to_int64 (PyInt z)
                = raise OverflowError
                    "Python int too large to convert to C long")
    by (cbn; now rewrite Hz).
  pose proof (length_slot rb Hwf Hix) as Hlen.
  assert (Hfill : forall v e,
            (forall xs, v <> PyList xs) -> Np.to_int64 v = inl e ->
            RingBuffer.fill rb v = (rb, inl e)).
  { intros v e Hv He. unfold RingBuffer.fill, Np.setitem_all.
    destruct Hwf as [Hsh Hd _].
    rewrite (assign_bad_scalar _ _ v e); trivial.
    - now destruct rb as [[sh d] c i].
    - now rewrite Hsh, Hd. }
  repeat split.
  - apply push_assign_raises; trivial.
    apply assign_bad_scalar; trivial. discriminate.
  - apply Hfill; [discriminate | exact Hto].
  - apply push_assign_raises; trivial.
    apply assign_bad_scalar; trivial. discriminate.
  - apply Hfill; [discriminate | reflexivity].
Qed.

Lemma unrepresentable_scalar_is_refused_witness :
  RingBuffer.push rb_3x2 (PyInt (2 ^ 63))
  = (rb_3x2, raise OverflowError "Python int too large to convert to C long")
  /\ RingBuffer.fill rb_3x2 (PyInt (2 ^ 63))
     = (rb_3x2,
        raise OverflowError "Python int too large to convert to C long")
  /\ RingBuffer.push rb_3x2 PyNone
     = (rb_3x2, raise TypeError "int() argument must be a string or a number")
  /\ RingBuffer.fill rb_3x2 PyNone
     = (rb_3x2,
        raise TypeError "int() argument must be a string or a number").
Proof.
  apply (unrepresentable_scalar_is_refused rb_3x2 (2 ^ 63)%Z).
  - exact wf_rb_3x2.
  - cbn. lia.
  - reflexivity.
Defined.

(** A flat list of representable integers, as numpy sees it. *)
Lemma discover_ints zs :
  Np.discover 1 (PyList (map PyInt zs)) = Some [length zs].
Proof.
  destruct zs as [| z zs]; [reflexivity |].
  cbn [map Np.discover length]. rewrite length_map.
  replace (forallb _ (map PyInt zs)) with true; [reflexivity |].
  symmetry. apply forallb_forall. intros y Hy.
  apply in_map_iff in Hy. now destruct Hy as (x & <- & _).
Qed.

Lemma leaves_ints zs :
  Np.leaves 1 (PyList (map PyInt zs)) = map PyInt zs.
Proof.
  cbn [Np.leaves]. induction zs as [| z zs IH]; [reflexivity |].
  cbn [map flat_map Np.leaves app]. now rewrite IH.
Qed.

Lemma pack_new_ints zs :
  forallb Np.in_int64 zs = true -> Np.pack_new (map PyInt zs) = inr zs.
Proof.
  unfold Np.pack_new. induction zs as [| z zs IH]; [reflexivity |].
  cbn [forallb map sequence Np.to_int64]. rewrite andb_true_iff.
  intros [Hz Hzs]. now rewrite Hz, (IH Hzs).
Qed.

(** X18. Pushing a list of representable integers into a two-dimensional
    buffer whose slots have [n] items: a list of length 1 is broadcast
    (every item of the slot becomes its integer), and a list whose length
    is neither [n] nor 1 raises [ValueError] and leaves the buffer as it
    was. *)
Theorem push_list_of_wrong_length rb n zs :
  wf rb -> RingBuffer._ix rb < RingBuffer._capacity rb ->
  payload rb = [n] -> forallb Np.in_int64 zs = true ->
  (forall z, zs = [z] -> n <> 1 ->
     exists rb',
       RingBuffer.push rb (PyList (map PyInt zs)) = (rb', inr tt)
       /\ slot rb' (RingBuffer._ix rb) = repeat z n
       /\ (forall j, j <> RingBuffer._ix rb -> slot rb' j = slot rb j))
  /\ (length zs <> n -> length zs <> 1 ->
      RingBuffer.push rb (PyList (map PyInt zs))
      = (rb, raise ValueError Np.broadcast_error)).
Proof.
  intros Hwf Hix Hp Hzs.
  pose proof (length_slot rb Hwf Hix) as Hlen.
  assert (Ha : length zs <> n ->
               Np.assign [n] (slot rb (RingBuffer._ix rb))
                 (PyList (map PyInt zs))
               = match Np.broadcast [length zs] zs [n] with
                 | Some d => (d, inr tt)
                 | None => (slot rb (RingBuffer._ix rb),
                            raise ValueError Np.broadcast_error)
                 end).
  { intros Hne. unfold Np.assign. cbn [length].
    rewrite discover_ints, leaves_ints, (pack_new_ints zs Hzs).
    cbn [Np.shape_eqb].
    destruct (Nat.eqb_spec (length zs) n) as [| _]; [contradiction |].
    reflexivity. }
  split.
  - intros z -> Hn1. rewrite Hp in *.
    destruct (push_assign rb (PyList (map PyInt [z])) (repeat z n))
      as (rb' & Hpush & _ & _ & Hs & Ho); trivial.
    + rewrite Hp, Ha by (cbn; lia). cbn [length Np.broadcast Nat.ltb Nat.leb].
      destruct (Nat.eqb_spec 1 n) as [E | _]; [now destruct Hn1 |].
      cbn [Nat.eqb option_map].
      f_equal. change [z] with (repeat z 1).
      rewrite concat_repeat_repeat. f_equal. lia.
    + exists rb'. now repeat split.
  - intros Hn H1. apply push_assign_raises; trivial.
    rewrite Hp, Ha by exact Hn. cbn [length Np.broadcast Nat.ltb Nat.leb].
    destruct (Nat.eqb_spec (length zs) n) as [| _]; [contradiction |].
    now destruct (Nat.eqb_spec (length zs) 1) as [| _]; [contradiction |].
Qed.

Lemma push_list_of_wrong_length_witness :
  (exists rb',
     RingBuffer.push rb_3x2 (PyList [PyInt 7]) = (rb', inr tt)
     /\ slot rb' 2 = [7; 7]%Z
     /\ (forall j, j <> 2 -> slot rb' j = slot rb_3x2 j))
  /\ RingBuffer.push rb_3x2 (PyList [PyInt 7; PyInt 8; PyInt 9])
     = (rb_3x2, raise ValueError Np.broadcast_error).
Proof.
  destruct (push_list_of_wrong_length rb_3x2 2 [7]%Z wf_rb_3x2)
    as [Hone _]; [cbn; lia | reflexivity | reflexivity |].
  destruct (push_list_of_wrong_length rb_3x2 2 [7; 8; 9]%Z wf_rb_3x2)
    as [_ Hbad]; [cbn; lia | reflexivity | reflexivity |].
  split.
  - apply (Hone 7%Z); [reflexivity | discriminate].
  - apply Hbad; discriminate.
Defined.

(** * Bounds *)

Lemma fold_left_min_spec xs : forall x,
  In (fold_left Z.min xs x) (x :: xs)
  /\ (forall y, In y (x :: xs) -> (fold_left Z.min xs x <= y)%Z).
Proof.
  induction xs as [| a xs IH]; intros x; cbn [fold_left].
  - split; [now left |]. intros y [<- | []]. lia.
  - destruct (IH (Z.min x a)) as [Hin Hle]. split.
    + destruct Hin as [E | Hin]; [| right; now right].
      rewrite <- E. destruct (Z.min_spec x a) as [[_ ->] | [_ ->]];
        [now left | right; now left].
    + intros y Hy.
      assert (H1 : (fold_left Z.min xs (Z.min x a) <= Z.min x a)%Z)
        by (apply Hle; now left).
      destruct Hy as [<- | [<- | Hy]]; try lia.
      apply Hle. now right.
Qed.

Lemma fold_left_max_spec xs : forall x,
  In (fold_left Z.max xs x) (x :: xs)
  /\ (forall y, In y (x :: xs) -> (y <= fold_left Z.max xs x)%Z).
Proof.
  induction xs as [| a xs IH]; intros x; cbn [fold_left].
  - split; [now left |]. intros y [<- | []]. lia.
  - destruct (IH (Z.max x a)) as [Hin Hle]. split.
    + destruct Hin as [E | Hin]; [| right; now right].
      rewrite <- E. destruct (Z.max_spec x a) as [[_ ->] | [_ ->]];
        [right; now left | now left].
    + intros y Hy.
      assert (H1 : (Z.max x a <= fold_left Z.max xs (Z.max x a))%Z)
        by (apply Hle; now left).
      destruct Hy as [<- | [<- | Hy]]; try lia.
      apply Hle. now right.
Qed.

(** X19. On a buffer that has items, [min()] and [max()] return stored
    items, the least and the greatest: every stored item, the slots never
    pushed to included, lies between them. *)
Theorem min_max_bound_the_items rb :
  Np.data (RingBuffer._buffer rb) <> [] ->
  exists lo hi,
    RingBuffer.min rb None = inr (Np.Scalar (Np.int64 lo))
    /\ RingBuffer.max rb None = inr (Np.Scalar (Np.int64 hi))
    /\ In lo (Np.data (RingBuffer._buffer rb))
    /\ In hi (Np.data (RingBuffer._buffer rb))
    /\ forall x, In x (Np.data (RingBuffer._buffer rb)) ->
                 (lo <= x <= hi)%Z.
Proof.
  intros Hne.
  unfold RingBuffer.min, RingBuffer.max, RingBuffer._numpy_reduction,
    Np.reduce.
  cbn [RingBuffer.axis_in_None_0 negb].
  destruct (Np.data (RingBuffer._buffer rb)) as [| x xs]; [contradiction |].
  cbn [Np.reduce1 bind].
  destruct (fold_left_min_spec xs x) as [Hmin Hle].
  destruct (fold_left_max_spec xs x) as [Hmax Hge].
  exists (fold_left Z.min xs x), (fold_left Z.max xs x).
  repeat split; trivial; [now apply Hle | now apply Hge].
Qed.

Lemma min_max_bound_the_items_witness :
  exists lo hi,
    RingBuffer.min rb_3x2 None = inr (Np.Scalar (Np.int64 lo))
    /\ RingBuffer.max rb_3x2 None = inr (Np.Scalar (Np.int64 hi))
    /\ In lo [1; 2; 3; 4; 5; 6]%Z
    /\ In hi [1; 2; 3; 4; 5; 6]%Z
    /\ forall x, In x [1; 2; 3; 4; 5; 6]%Z -> (lo <= x <= hi)%Z.
Proof.
  apply (min_max_bound_the_items rb_3x2). discriminate.
Defined.
